(** * Content checker actor: the per-URL change-detection workflow of [src/main.ts]

    The development embeds the request handler, the retry contract of the
    crawler the handler is registered with, and the result-processing loop
    of [main.ts], and states the properties of the workflow over them.

    Conventions.
    - A [Buffer] is a list of bytes; a JavaScript string holding text that
      is only compared, concatenated and measured is a [string].  The [url]
      of a [UrlConfig] is represented by its UTF-8 bytes, which is what
      [Buffer.from(url)] hands to the base64 encoder.
    - [null]/[undefined] are [None].
    - The named key-value store is a pair of finite maps, one per value
      type the code reads back ([as Buffer], [as string]).
    - Everything the program does to the outside (log lines, data set
      records, mails, calls into [utils.js]) is recorded, in order, as a
      list of [Event]s. *)

From Stdlib Require Import NArith Ascii String List Lia DecimalString.
From Stdlib Require Strings.Byte.
From stdpp Require Import base option list strings gmap fin_maps.

Local Open Scope string_scope.
Local Open Scope list_scope.

(** ** Buffers and the base64 encoding of [Buffer.toString('base64')] *)

Module Base64.

Definition Buffer := list Byte.byte.

Definition alphabet : string :=
  "ABCDEFGHIJKLMNOPQRSTUVWXYZabcdefghijklmnopqrstuvwxyz0123456789+/".

Definition pad : ascii := "="%char.

(** The character of a 6-bit group. *)
Definition digit (i : N) : ascii :=
  match String.get (N.to_nat i) alphabet with
  | Some c => c
  | None => pad
  end.

(** The four 6-bit groups of three bytes (the last ones cut short when the
    input ends after one or two bytes). *)
Definition sextet0 (b0 : N) : N := b0 / 4.
Definition sextet1 (b0 b1 : N) : N := (b0 mod 4) * 16 + b1 / 16.
Definition sextet2 (b1 b2 : N) : N := (b1 mod 16) * 4 + b2 / 64.
Definition sextet3 (b2 : N) : N := b2 mod 64.

(** The encoding without its padding. *)
Fixpoint body (bs : list N) : list ascii :=
  match bs with
  | [] => []
  | [b0] => [digit (sextet0 b0); digit (sextet1 b0 0)]
  | [b0; b1] =>
      [digit (sextet0 b0); digit (sextet1 b0 b1); digit (sextet2 b1 0)]
  | b0 :: b1 :: b2 :: rest =>
      digit (sextet0 b0) :: digit (sextet1 b0 b1)
        :: digit (sextet2 b1 b2) :: digit (sextet3 b2) :: body rest
  end.

Definition padding (n : nat) : list ascii :=
  match n mod 3 with
  | 1 => [pad; pad]
  | 2 => [pad]
  | _ => []
  end.

Definition encode_bytes (bs : list N) : list ascii :=
  body bs ++ padding (length bs).

(** [buf.toString('base64')] *)
Definition encode (buf : Buffer) : string :=
  string_of_list_ascii (encode_bytes (map Byte.to_N buf)).

(** Lists of numbers that are bytes. *)
Definition byte_sized (bs : list N) : Prop := Forall (fun b => (b < 256)%N) bs.

(** The characters of the alphabet. *)
Definition is_digit (c : ascii) : Prop := exists i, (i < 64)%N /\ c = digit i.

End Base64.

Abbreviation Buffer := Base64.Buffer.

(** [Buffer.from(s)] on a string given by its UTF-8 bytes. *)
Definition Buffer_from (s : string) : Buffer := list_byte_of_string s.

(** ** The key of a URL (main.ts, lines 76-84) *)

(** The character class [[a-zA-Z0-9]]. *)
Definition is_alnum (c : ascii) : bool :=
  let n := N_of_ascii c in
  ((97 <=? n) && (n <=? 122) || (65 <=? n) && (n <=? 90)
   || (48 <=? n) && (n <=? 57))%N.

(** [s.replace(/[^a-zA-Z0-9]/g, '')] *)
Definition strip_non_alnum (s : string) : string :=
  string_of_list_ascii (List.filter is_alnum (list_ascii_of_string s)).

(** [Buffer.from(urlConfig.url).toString('base64').replace(/[^a-zA-Z0-9]/g, '')] *)
Definition urlKey (url : string) : string :=
  strip_non_alnum (Base64.encode (Buffer_from url)).

(** ** Input (main.ts, lines 9-23 and 53-60) *)

Inductive RetryStrategy := on_block | on_all_errors | never_retry.

Record UrlConfig := {
  url : string;
  contentSelector : string;
  screenshotSelector : option string;
  sendNotificationText : option string;
}.

Record Input := {
  urls : list UrlConfig;
  sendNotificationTo : string;
  navigationTimeout : option N;
  informOnError : string;
  maxRetries : option nat;
  retryStrategy : option RetryStrategy;
}.

(** The defaults of the destructuring at lines 53-60. *)
Definition the_navigationTimeout (input : Input) : N :=
  default 30000%N (navigationTimeout input).
Definition the_maxRetries (input : Input) : nat :=
  default 5 (maxRetries input).
Definition the_retryStrategy (input : Input) : RetryStrategy :=
  default on_block (retryStrategy input).

(** ** JavaScript odds and ends *)

Definition nl : string := String "010"%char EmptyString.

(** A number inside a template literal. *)
Definition show_N (n : N) : string := NilZero.string_of_uint (N.to_uint n).

(** A [string | null] inside a template literal. *)
Definition show_nullable (v : option string) : string :=
  match v with
  | Some s => s
  | None => "null"
  end.

(** Truthiness of a string and of a [string | undefined]. *)
Definition truthy (s : string) : bool := negb (String.eqb s "").
Definition truthy_opt (v : option string) : bool :=
  match v with
  | Some s => truthy s
  | None => false
  end.

(** [previousData === content], with a [previousData] that may be [null]. *)
Definition strict_eq (previousData : option string) (content : string) : bool :=
  match previousData with
  | Some p => String.eqb p content
  | None => false
  end.

(** ** What the outside world sees *)

Record DatasetItem := {
  item_url : string;
  item_previousData : option string;
  item_content : string;
  item_previousScreenshotUrl : option string;
  item_currentScreenshotUrl : string;
  item_sendNotificationTo : string;
  item_isFirstRun : option bool;
}.

Record Attachment := { filename : string; data : string }.

Record Mail := {
  to : string;
  subject : string;
  text : string;
  attachments : list Attachment;
}.

(** [createSlackMessage] and [handleFailedAndThrow] live in [utils.js];
    a call to either is recorded with the arguments it receives. *)
Record SlackArgs := {
  slack_url : string;
  slack_previousData : option string;
  slack_content : string;
  slack_kvStoreId : string;
}.

Record FailedArgs := {
  failed_type : string;
  failed_fullPageScreenshot : option Buffer;
  failed_informOnError : string;
  failed_sendNotificationTo : string;
  failed_url : string;
}.

Inductive Event :=
  | log_info (msg : string)
  | log_warning (msg : string)
  | Actor_pushData (item : DatasetItem)
  | Actor_setValue (key : string) (createSlackMessage : SlackArgs)
  | Actor_call_send_mail (mail : Mail)
  | handleFailedAndThrow (args : FailedArgs).

(** ** The results collected per URL (main.ts, lines 86-92) *)

Record UrlResult := {
  screenshotBuffer : option Buffer;
  fullPageScreenshot : option Buffer;
  content : option string;
  urlConfig : UrlConfig;
}.

(** A JavaScript [Map] keeps its keys in insertion order and [set] on a key
    it already has replaces the value in place. *)
Definition UrlResults := list (string * UrlResult).

Fixpoint Map_set (key : string) (v : UrlResult) (m : UrlResults) : UrlResults :=
  match m with
  | [] => [(key, v)]
  | (k, w) :: rest =>
      if String.eqb k key then (k, v) :: rest else (k, w) :: Map_set key v rest
  end.

Fixpoint Map_get (key : string) (m : UrlResults) : option UrlResult :=
  match m with
  | [] => None
  | (k, w) :: rest => if String.eqb k key then Some w else Map_get key rest
  end.

(** ** One visit, as the request handler observes it *)

Record Page := {
  response_status : N;
  page_title : string;
  (** [injectJQuery()] returns *)
  injectJQuery_ok : bool;
  (** [testForBlocks(page)] throws *)
  testForBlocks_throws : bool;
  (** [page.$eval(selector, el => el.textContent)]; [None] when it throws *)
  page_eval_textContent : string -> option string;
  (** [screenshotDOMElement(page, selector, 10)]; [None] when it throws *)
  screenshotDOMElement : string -> option Buffer;
  (** [page.screenshot({ fullPage: true, ... })]; [None] when it throws *)
  page_screenshot : option Buffer;
}.

Inductive Thrown :=
  | response_status_error (msg : string)
  | testForBlocks_error
  | page_screenshot_error
  | selector_error (updatedMessage : string).

Inductive Completion := Returned | Threw (e : Thrown).

Definition content_errorMessage : string :=
  "Failed to extract the content, either the content "
  +:+ "selector is wrong or page layout changed. Check the full screenshot.".

Definition screenshot_errorMessage : string :=
  "Failed to capture the screenshot, either the screenshot or "
  +:+ "content selector is wrong or page layout changed. Check the full screenshot.".

(** ** The request handler (main.ts, lines 107-177) *)

Definition requestHandler (strategy : RetryStrategy)
    (cfg : UrlConfig) (key : string) (page : Page) (urlResults : UrlResults)
    : UrlResults * list Event * Completion :=
  let contentSel := contentSelector cfg in
  let screenshotSel := default contentSel (screenshotSelector cfg) in
  let status := response_status page in
  if (status =? 404)%N then
    (urlResults,
     [log_warning ("404 Status - Page not found! Please change the URL: " +:+ url cfg)],
     Returned)
  else if (400 <=? status)%N then
    (urlResults, [],
     Threw (response_status_error
              ("Response status: " +:+ show_N status
               +:+ ". Probably got blocked, trying again!")))
  else
    let loaded :=
      [log_info ("Page loaded with title: " +:+ page_title page
                 +:+ " on URL: " +:+ url cfg);
       log_info "Sleeping 5s ..."]
      ++ (if injectJQuery_ok page then []
          else [log_warning "Could not inject JQuery so cannot test captcha presence"]) in
    if testForBlocks_throws page then
      match page_screenshot page with
      | None => (urlResults, loaded, Threw page_screenshot_error)
      | Some shot =>
          (Map_set key
             {| screenshotBuffer := None; fullPageScreenshot := Some shot;
                content := None; urlConfig := cfg |} urlResults,
           loaded, Threw testForBlocks_error)
      end
    else
      let logs := loaded ++ [log_info "Saving screenshot..."] in
      let '(errorHappened, errorMessage, text_) :=
        match page_eval_textContent page contentSel with
        | Some c => (false, "", Some c)
        | None => (true, content_errorMessage, None)
        end in
      let '(errorHappened, errorMessage, shot_) :=
        if negb errorHappened then
          match screenshotDOMElement page screenshotSel with
          | Some b => (errorHappened, errorMessage, Some b)
          | None => (true, screenshot_errorMessage, None)
          end
        else (errorHappened, errorMessage, None) in
      if errorHappened then
        match page_screenshot page with
        | None => (urlResults, logs, Threw page_screenshot_error)
        | Some shot =>
            let urlResults' :=
              Map_set key
                {| screenshotBuffer := None; fullPageScreenshot := Some shot;
                   content := None; urlConfig := cfg |} urlResults in
            match strategy with
            | on_all_errors =>
                (urlResults', logs,
                 Threw (selector_error (errorMessage +:+ " Will retry...")))
            | _ => (urlResults', logs ++ [log_warning errorMessage], Returned)
            end
        end
      else
        (Map_set key
           {| screenshotBuffer := shot_; fullPageScreenshot := None;
              content := text_; urlConfig := cfg |} urlResults,
         logs, Returned).

(** ** The crawler the handler is registered with (main.ts, lines 94-98, 180)

    [PlaywrightCrawler] calls the handler once per attempt.  A handler that
    returns finishes the request; a handler that throws has the request
    attempted again as long as fewer than [maxRequestRetries] retries were
    made, and given up after that.  [visits n] is what the [n]-th attempt
    at the URL observes. *)

Definition maxRequestRetries (strategy : RetryStrategy) (maxRetries : nat) : nat :=
  match strategy with
  | never_retry => 0
  | _ => maxRetries
  end.

Record RequestRun := {
  run_results : UrlResults;
  run_events : list Event;
  run_attempts : nat;
  run_completion : Completion;
}.

Fixpoint crawlRequest (retriesLeft : nat) (strategy : RetryStrategy)
    (cfg : UrlConfig) (key : string) (visits : nat -> Page) (retryCount : nat)
    (urlResults : UrlResults) : RequestRun :=
  let '(urlResults', events, completion) :=
    requestHandler strategy cfg key (visits retryCount) urlResults in
  match completion, retriesLeft with
  | Threw _, S retriesLeft' =>
      let later :=
        crawlRequest retriesLeft' strategy cfg key visits (S retryCount) urlResults' in
      {| run_results := run_results later;
         run_events := events ++ run_events later;
         run_attempts := S (run_attempts later);
         run_completion := run_completion later |}
  | _, _ =>
      {| run_results := urlResults'; run_events := events;
         run_attempts := 1; run_completion := completion |}
  end.

(** The requests of the queue, each with all its attempts, one after the
    other.  The crawler is free to take them in another order and puts a
    request that failed back behind the others; the handler of one request
    touches no entry but its own, so this shows in the order of the
    collected entries only, not in what is collected under a key. *)
Fixpoint crawler_run (strategy : RetryStrategy) (maxRetries : nat)
    (web : string -> nat -> Page) (requests : list (UrlConfig * string))
    (urlResults : UrlResults) : UrlResults * list Event :=
  match requests with
  | [] => (urlResults, [])
  | (cfg, key) :: rest =>
      let r := crawlRequest (maxRequestRetries strategy maxRetries) strategy
                 cfg key (web (url cfg)) 0 urlResults in
      let '(urlResults', events) :=
        crawler_run strategy maxRetries web rest (run_results r) in
      (urlResults', run_events r ++ events)
  end.

(** The requests added to the queue at lines 76-84, one per configured
    URL.  (The queue itself keeps one request per normalised URL: of two
    configured URLs it takes for the same, only the first is visited.) *)
Definition requests_of (input : Input) : list (UrlConfig * string) :=
  map (fun cfg => (cfg, urlKey (url cfg))) (urls input).

(** ** The named key-value store (main.ts, lines 62-68)

    [getValue] answers [null] for a key that has no record and [setValue]
    with a [null] value deletes the record.  [setValue_buffer] and
    [setValue_text] are the writes under a key the store accepts; which
    keys it accepts, and where the processing ends when it does not, is
    added further down ([accepted_key], [compareAndReport_checked]). *)

Record KeyValueStore := {
  store_id : string;
  buffers : gmap string Buffer;
  texts : gmap string string;
}.

Definition getValue_buffer (key : string) (store : KeyValueStore) : option Buffer :=
  buffers store !! key.

Definition getValue_text (key : string) (store : KeyValueStore) : option string :=
  texts store !! key.

Definition setValue_buffer (key : string) (value : option Buffer)
    (store : KeyValueStore) : KeyValueStore :=
  {| store_id := store_id store;
     buffers := match value with
                | Some b => <[key := b]> (buffers store)
                | None => delete key (buffers store)
                end;
     texts := texts store |}.

Definition setValue_text (key : string) (value : option string)
    (store : KeyValueStore) : KeyValueStore :=
  {| store_id := store_id store;
     buffers := buffers store;
     texts := match value with
              | Some s => <[key := s]> (texts store)
              | None => delete key (texts store)
              end |}.

Definition record_url (store : KeyValueStore) (key : string) : string :=
  "https://api.apify.com/v2/key-value-stores/" +:+ store_id store
  +:+ "/records/" +:+ key.

(** [store.getPublicUrl(key)] *)
Definition getPublicUrl (store : KeyValueStore) (key : string) : string :=
  record_url store key.

Definition currentScreenshotKey (urlKey : string) : string :=
  "currentScreenshot_" +:+ urlKey +:+ ".png".
Definition currentDataKey (urlKey : string) : string :=
  "currentData_" +:+ urlKey.
Definition previousScreenshotKey (urlKey : string) : string :=
  "previousScreenshot_" +:+ urlKey +:+ ".png".
Definition previousDataKey (urlKey : string) : string :=
  "previousData_" +:+ urlKey.

(** ** The branch taken at lines 225-247 *)

Inductive DiffResult := FirstRun | Unchanged | Changed.

Definition diff (previousScreenshot : option Buffer)
    (previousData : option string) (content : string) : DiffResult :=
  match previousScreenshot with
  | None => FirstRun
  | Some _ => if strict_eq previousData content then Unchanged else Changed
  end.

(** The warning that announces each branch. *)
Definition verdict_event (cfg : UrlConfig) (d : DiffResult) : Event :=
  match d with
  | FirstRun =>
      log_warning ("Running for the first time for URL: " +:+ url cfg +:+ ", no check")
  | Unchanged => log_warning ("No change for URL: " +:+ url cfg)
  | Changed => log_warning ("Content changed for URL: " +:+ url cfg)
  end.

Section Processing.

(** [MAX_ATTACHMENT_SIZE_BYTES] of [consts.js]. *)
Variable MAX_ATTACHMENT_SIZE_BYTES : N.

(** Whether a call of [handleFailedAndThrow] of [utils.js] throws. *)
Variable handleFailedAndThrow_throws : FailedArgs -> bool.

Variable input : Input.

(** ** The mail of lines 272-296 *)

Definition too_big_line : string :=
  "Screenshots are bigger than " +:+ show_N MAX_ATTACHMENT_SIZE_BYTES
  +:+ ", not sending them as part of email attachment".

Definition mail_text (cfg : UrlConfig) (notificationNote : string)
    (previousData : option string) (content : string) : string :=
  "URL: " +:+ url cfg +:+ nl +:+ nl +:+ notificationNote
  +:+ "Previous data: " +:+ show_nullable previousData +:+ nl +:+ nl
  +:+ "Current data: " +:+ content.

Definition fits (previousScreenshotBase64 currentScreenshotBase64 : string) : bool :=
  (N.of_nat (String.length previousScreenshotBase64
             + String.length currentScreenshotBase64)
   <? MAX_ATTACHMENT_SIZE_BYTES)%N.

Definition assembleMail (cfg : UrlConfig) (urlKey notificationNote : string)
    (previousData : option string) (content : string)
    (previousScreenshot screenshotBuffer : Buffer) : list Event * Mail :=
  let previousScreenshotBase64 := Base64.encode previousScreenshot in
  let currentScreenshotBase64 := Base64.encode screenshotBuffer in
  let text := mail_text cfg notificationNote previousData content in
  let '(warnings, text, attachments) :=
    if fits previousScreenshotBase64 currentScreenshotBase64 then
      ([], text,
       [ {| filename := previousScreenshotKey urlKey;
            data := previousScreenshotBase64 |};
         {| filename := currentScreenshotKey urlKey;
            data := currentScreenshotBase64 |} ])
    else
      ([log_warning (too_big_line +:+ " for URL: " +:+ url cfg +:+ ".")],
       text +:+ nl +:+ nl +:+ too_big_line +:+ ".",
       []) in
  (warnings,
   {| to := sendNotificationTo input;
      subject := "Apify content checker - page changed! (" +:+ url cfg +:+ ")";
      text := text;
      attachments := attachments |}).

(** ** One round of the result-processing loop (main.ts, lines 183-302) *)

Definition failedArgs (result : UrlResult) : FailedArgs :=
  {| failed_type := "screenshot";
     failed_fullPageScreenshot := fullPageScreenshot result;
     failed_informOnError := informOnError input;
     failed_sendNotificationTo := sendNotificationTo input;
     failed_url := url (urlConfig result) |}.

(** [await handleFailedAndThrow({...}); continue;]: the loop goes on with
    the next entry unless the call threw. *)
Inductive Flow := next_round | uncaught.

Definition failed (store : KeyValueStore) (result : UrlResult)
    : KeyValueStore * list Event * Flow :=
  (store,
   [handleFailedAndThrow (failedArgs result)],
   if handleFailedAndThrow_throws (failedArgs result) then uncaught else next_round).

(** Lines 210-301, for a result that has both a screenshot and a content. *)
Definition compareAndReport (urlKey : string) (cfg : UrlConfig)
    (screenshotBuffer : Buffer) (content : string) (store : KeyValueStore)
    : KeyValueStore * list Event :=
  let store := setValue_buffer (currentScreenshotKey urlKey) (Some screenshotBuffer) store in
  let store := setValue_text (currentDataKey urlKey) (Some content) store in
  let previousScreenshot := getValue_buffer (previousScreenshotKey urlKey) store in
  let previousData := getValue_text (previousDataKey urlKey) store in
  let logs :=
    [log_info ("Processing URL: " +:+ url cfg);
     log_info ("Previous data: " +:+ show_nullable previousData);
     log_info ("Current data: " +:+ content)] in
  match previousScreenshot with
  | None =>
      (store,
       logs ++
       [log_warning ("Running for the first time for URL: " +:+ url cfg +:+ ", no check");
        Actor_pushData
          {| item_url := url cfg;
             item_previousData := None;
             item_content := content;
             item_previousScreenshotUrl := None;
             item_currentScreenshotUrl := getPublicUrl store (currentScreenshotKey urlKey);
             item_sendNotificationTo := sendNotificationTo input;
             item_isFirstRun := Some true |}])
  | Some previousScreenshot =>
      let store := setValue_buffer (previousScreenshotKey urlKey) (Some previousScreenshot) store in
      let store := setValue_text (previousDataKey urlKey) previousData store in
      if strict_eq previousData content then
        (store, logs ++ [log_warning ("No change for URL: " +:+ url cfg)])
      else
        let notificationNote :=
          if truthy_opt (sendNotificationText cfg)
          then "Note: " +:+ default "" (sendNotificationText cfg) +:+ nl +:+ nl
          else "" in
        let changed :=
          [log_warning ("Content changed for URL: " +:+ url cfg);
           Actor_setValue ("SLACK_MESSAGE_" +:+ urlKey)
             {| slack_url := url cfg;
                slack_previousData := previousData;
                slack_content := content;
                slack_kvStoreId := store_id store |};
           Actor_pushData
             {| item_url := url cfg;
                item_previousData := previousData;
                item_content := content;
                item_previousScreenshotUrl :=
                  Some (getPublicUrl store (previousScreenshotKey urlKey));
                item_currentScreenshotUrl := getPublicUrl store (currentScreenshotKey urlKey);
                item_sendNotificationTo := sendNotificationTo input;
                item_isFirstRun := None |}] in
        if truthy (sendNotificationTo input) then
          let '(warnings, mail) :=
            assembleMail cfg urlKey notificationNote previousData content
              previousScreenshot screenshotBuffer in
          (store,
           logs ++ changed
           ++ [log_info ("Sending mail to " +:+ sendNotificationTo input
                         +:+ " for URL: " +:+ url cfg +:+ "...")]
           ++ warnings ++ [Actor_call_send_mail mail])
        else
          (store,
           logs ++ changed
           ++ [log_warning ("No e-mail address provided, email notification skipped for URL: "
                            +:+ url cfg)])
  end.

Definition processResult (urlKey : string) (result : UrlResult)
    (store : KeyValueStore) : KeyValueStore * list Event * Flow :=
  match screenshotBuffer result with
  | None => failed store result   (* !screenshotBuffer *)
  | Some shot =>
      match content result with
      | None => failed store result   (* !content *)
      | Some c =>
          if truthy c then
            let '(store', events) := compareAndReport urlKey (urlConfig result) shot c store in
            (store', events, next_round)
          else failed store result   (* !content *)
      end
  end.

Fixpoint processResults (urlResults : UrlResults) (store : KeyValueStore)
    : KeyValueStore * list Event * Flow :=
  match urlResults with
  | [] => (store, [], next_round)
  | (urlKey, result) :: rest =>
      let '(store', events, flow) := processResult urlKey result store in
      match flow with
      | uncaught => (store', events, uncaught)
      | next_round =>
          let '(store'', events', flow') := processResults rest store' in
          (store'', events ++ events', flow')
      end
  end.

(** ** The closing log lines (main.ts, lines 304-318) *)

Definition closing_lines (store : KeyValueStore) (entry : string * UrlResult)
    : list Event :=
  let '(urlKey, result) := entry in
  [log_info ("URL: " +:+ url (urlConfig result));
   log_info ("- " +:+ record_url store (currentScreenshotKey urlKey));
   log_info ("- " +:+ record_url store (currentDataKey urlKey))]
  ++ match getValue_buffer (previousScreenshotKey urlKey) store with
     | Some _ =>
         [log_info ("- " +:+ record_url store (previousScreenshotKey urlKey));
          log_info ("- " +:+ record_url store (previousDataKey urlKey))]
     | None => []
     end.

Definition closing (urlResults : UrlResults) (store : KeyValueStore) : list Event :=
  [log_info "Done processing all URLs.";
   log_info "You can check the output in the named key-value store on the following URLs:"]
  ++ concat (map (closing_lines store) urlResults).

(** ** One run of the actor (main.ts, lines 53-320)

    The input is the validated one; [web url n] is what the [n]-th attempt
    at [url] observes; [store] is the named store as the run finds it.  An
    exception that escapes the processing loop ends the run there. *)

Definition main (web : string -> nat -> Page) (store : KeyValueStore)
    : KeyValueStore * list Event :=
  let '(urlResults, crawling) :=
    crawler_run (the_retryStrategy input) (the_maxRetries input) web
      (requests_of input) [] in
  let '(store', processing, flow) := processResults urlResults store in
  match flow with
  | uncaught => (store', crawling ++ processing)
  | next_round => (store', crawling ++ processing ++ closing urlResults store')
  end.

End Processing.

(** ** The outcome of a visit, read off the page

    The handler has no outcome type; these are the conditions under which
    it takes each of its exits. *)

Definition threw {A} (r : option A) : bool :=
  match r with
  | None => true
  | Some _ => false
  end.

Definition soft_not_found (page : Page) : bool :=
  (response_status page =? 404)%N.

Definition server_error (page : Page) : bool :=
  (400 <=? response_status page)%N && negb (response_status page =? 404)%N.

Definition blocked (page : Page) : bool :=
  (response_status page <? 400)%N && testForBlocks_throws page.

Definition content_failure (cfg : UrlConfig) (page : Page) : bool :=
  (response_status page <? 400)%N && negb (testForBlocks_throws page)
  && threw (page_eval_textContent page (contentSelector cfg)).

Definition screenshot_failure (cfg : UrlConfig) (page : Page) : bool :=
  (response_status page <? 400)%N && negb (testForBlocks_throws page)
  && negb (threw (page_eval_textContent page (contentSelector cfg)))
  && threw (screenshotDOMElement page
              (default (contentSelector cfg) (screenshotSelector cfg))).

Definition selector_failure (cfg : UrlConfig) (page : Page) : bool :=
  content_failure cfg page || screenshot_failure cfg page.

(** The entry the handler leaves behind when it could only take the
    full-page screenshot. *)
Definition fallback_entry (cfg : UrlConfig) (shot : Buffer) : UrlResult :=
  {| screenshotBuffer := None; fullPageScreenshot := Some shot;
     content := None; urlConfig := cfg |}.

Definition not_plus_slash (c : ascii) : bool :=
  negb (Ascii.eqb c "+" || Ascii.eqb c "/").

(** URLs whose base64 encoding has neither [+] nor [/]. *)
Definition plain (u : string) : bool :=
  forallb not_plus_slash (list_ascii_of_string (Base64.encode (Buffer_from u))).

(** The handler throws on this page, whatever was collected before. *)
Definition throws_on (strategy : RetryStrategy) (cfg : UrlConfig) (key : string)
    (page : Page) : Prop :=
  forall rs, exists rs' events e,
    requestHandler strategy cfg key page rs = (rs', events, Threw e).

(** What a run does besides logging. *)
Definition is_log (e : Event) : bool :=
  match e with
  | log_info _ | log_warning _ => true
  | _ => false
  end.

Definition actions (events : list Event) : list Event :=
  List.filter (fun e => negb (is_log e)) events.

(** ** Concrete runs used below *)

Module Scenario.

Definition cfg : UrlConfig :=
  {| url := "http://a.io/xy"; contentSelector := "h1";
     screenshotSelector := None; sendNotificationText := None |}.

Definition key : string := urlKey (url cfg).

Definition input : Input :=
  {| urls := [cfg]; sendNotificationTo := "me@a.io"; navigationTimeout := None;
     informOnError := "true"; maxRetries := None; retryStrategy := None |}.

Definition input_with (strategy : RetryStrategy) : Input :=
  {| urls := [cfg]; sendNotificationTo := "me@a.io"; navigationTimeout := None;
     informOnError := "true"; maxRetries := Some 2; retryStrategy := Some strategy |}.

Definition img : Buffer := Buffer_from "img".
Definition full : Buffer := Buffer_from "full".

(** Status 200, both selectors match, the content is [t]. *)
Definition page_ok (t : string) : Page :=
  {| response_status := 200; page_title := "T"; injectJQuery_ok := true;
     testForBlocks_throws := false;
     page_eval_textContent := fun _ => Some t;
     screenshotDOMElement := fun _ => Some img;
     page_screenshot := Some full |}.

Definition page_status (status : N) : Page :=
  {| response_status := status; page_title := "T"; injectJQuery_ok := true;
     testForBlocks_throws := false;
     page_eval_textContent := fun _ => Some "hello";
     screenshotDOMElement := fun _ => Some img;
     page_screenshot := Some full |}.

Definition page_blocked : Page :=
  {| response_status := 200; page_title := "T"; injectJQuery_ok := true;
     testForBlocks_throws := true;
     page_eval_textContent := fun _ => Some "hello";
     screenshotDOMElement := fun _ => Some img;
     page_screenshot := Some full |}.

(** Status 200, the content selector matches nothing. *)
Definition page_no_match : Page :=
  {| response_status := 200; page_title := "T"; injectJQuery_ok := true;
     testForBlocks_throws := false;
     page_eval_textContent := fun _ => None;
     screenshotDOMElement := fun _ => Some img;
     page_screenshot := Some full |}.

Definition always (page : Page) : string -> nat -> Page := fun _ _ => page.

Definition empty_store : KeyValueStore :=
  {| store_id := "S"; buffers := ∅; texts := ∅ |}.

(** A store that holds a baseline for [cfg]. *)
Definition store_with (previousData : option string) : KeyValueStore :=
  setValue_text (previousDataKey key) previousData
    (setValue_buffer (previousScreenshotKey key) (Some img) empty_store).

Definition budget : N := 100.

Definition never_throws : FailedArgs -> bool := fun _ => false.

Definition first_run : KeyValueStore * list Event :=
  main budget never_throws input (always (page_ok "hello")) empty_store.

Definition second_run : KeyValueStore * list Event :=
  main budget never_throws input (always (page_ok "hello")) (fst first_run).

End Scenario.

(** ** Reading the input (main.ts, lines 27-49)

    What [Actor.getInput()] resolves to, as far as the check at line 33
    looks at it: whether it is falsy, what [typeof] says, and which keys
    [Object.keys] lists.  An array of length [n] has the keys [0] to
    [n-1]. *)

Inductive InputRaw :=
  | raw_nullish                       (* null or undefined *)
  | raw_scalar                        (* a boolean, a number or a string *)
  | raw_array (length : nat)
  | raw_object (keys : list string).

Definition digit_char (c : ascii) : bool :=
  let n := N_of_ascii c in ((48 <=? n) && (n <=? 57))%N.

(** [/^\d+$/.test(key)] *)
Definition all_digits (key : string) : bool :=
  negb (String.eqb key "") && forallb digit_char (list_ascii_of_string key).

Definition Object_keys (raw : InputRaw) : list string :=
  match raw with
  | raw_array n => map (fun i => show_N (N.of_nat i)) (seq 0 n)
  | raw_object keys => keys
  | _ => []
  end.

(** [inputRaw && typeof inputRaw === 'object'
     && !Object.keys(inputRaw).every(key => /^\d+$/.test(key))] *)
Definition getInput_usable (raw : InputRaw) : bool :=
  match raw with
  | raw_nullish | raw_scalar => false
  | _ => negb (forallb all_digits (Object_keys raw))
  end.

Inductive Loaded :=
  | from_getInput
  | from_INPUT_json
  | load_error (msg : string).

(** [getInput] is [None] when [Actor.getInput()] throws; [file_parsed] says
    whether reading and parsing [INPUT.json] went through. *)
Definition loadInput (getInput : option InputRaw) (file_parsed : bool) : Loaded :=
  let fallback :=
    if file_parsed then from_INPUT_json
    else load_error "Could not read input from Actor.getInput() or INPUT.json file" in
  match getInput with
  | Some raw => if getInput_usable raw then from_getInput else fallback
  | None => fallback
  end.

(** ** The name of the store (main.ts, lines 62-65) *)

(** An environment variable appended to a string. *)
Definition show_env (v : option string) : string :=
  match v with
  | Some s => s
  | None => "undefined"
  end.

Definition storeName (APIFY_ACTOR_TASK_ID APIFY_ACT_ID : option string) : string :=
  "content-checker-store-"
  +:+ (if negb (truthy_opt APIFY_ACTOR_TASK_ID)
       then show_env APIFY_ACT_ID else show_env APIFY_ACTOR_TASK_ID).

(** ** More views of a run *)

(** Both selectors deliver. *)
Definition success (cfg : UrlConfig) (page : Page) : bool :=
  (response_status page <? 400)%N && negb (testForBlocks_throws page)
  && negb (threw (page_eval_textContent page (contentSelector cfg)))
  && negb (threw (screenshotDOMElement page
                    (default (contentSelector cfg) (screenshotSelector cfg)))).

(** The entry the handler stores at line 175. *)
Definition success_entry (cfg : UrlConfig) (page : Page) : UrlResult :=
  {| screenshotBuffer :=
       screenshotDOMElement page (default (contentSelector cfg) (screenshotSelector cfg));
     fullPageScreenshot := None;
     content := page_eval_textContent page (contentSelector cfg);
     urlConfig := cfg |}.

Definition is_returned (c : Completion) : bool :=
  match c with
  | Returned => true
  | Threw _ => false
  end.

Definition is_on_all_errors (strategy : RetryStrategy) : bool :=
  match strategy with
  | on_all_errors => true
  | _ => false
  end.

(** The sizes the budget check of line 277 compares, from the sizes of the
    two screenshots in bytes. *)
Definition base64_length (bytes : nat) : nat := 4 * ((bytes + 2) / 3).

(** The record of a first run (lines 229-237) and of a change (lines 260-267). *)
Definition first_run_item (input : Input) (store : KeyValueStore)
    (urlKey : string) (cfg : UrlConfig) (content : string) : DatasetItem :=
  {| item_url := url cfg;
     item_previousData := None;
     item_content := content;
     item_previousScreenshotUrl := None;
     item_currentScreenshotUrl := getPublicUrl store (currentScreenshotKey urlKey);
     item_sendNotificationTo := sendNotificationTo input;
     item_isFirstRun := Some true |}.

Definition changed_item (input : Input) (store : KeyValueStore)
    (urlKey : string) (cfg : UrlConfig) (previousData : option string)
    (content : string) : DatasetItem :=
  {| item_url := url cfg;
     item_previousData := previousData;
     item_content := content;
     item_previousScreenshotUrl :=
       Some (getPublicUrl store (previousScreenshotKey urlKey));
     item_currentScreenshotUrl := getPublicUrl store (currentScreenshotKey urlKey);
     item_sendNotificationTo := sendNotificationTo input;
     item_isFirstRun := None |}.

Definition notificationNote (cfg : UrlConfig) : string :=
  if truthy_opt (sendNotificationText cfg)
  then "Note: " +:+ default "" (sendNotificationText cfg) +:+ nl +:+ nl
  else "".

(** The guards of lines 188 and 199. *)
Definition is_failed_entry (result : UrlResult) : bool :=
  threw (screenshotBuffer result) || negb (truthy_opt (content result)).

Definition pushed (events : list Event) : list DatasetItem :=
  List.flat_map (fun e => match e with
                          | Actor_pushData item => [item]
                          | _ => []
                          end) events.

Definition mails (events : list Event) : list Mail :=
  List.flat_map (fun e => match e with
                          | Actor_call_send_mail mail => [mail]
                          | _ => []
                          end) events.

Definition slack_messages (events : list Event) : list (string * SlackArgs) :=
  List.flat_map (fun e => match e with
                          | Actor_setValue key msg => [(key, msg)]
                          | _ => []
                          end) events.

Module Cases.

(** Two different URLs with one key. *)
Definition cfg_q : UrlConfig :=
  {| url := "http://a.io/xy?"; contentSelector := "h1";
     screenshotSelector := None; sendNotificationText := None |}.

Definition cfg_other : UrlConfig :=
  {| url := "http://a.io/ab"; contentSelector := "h1";
     screenshotSelector := None; sendNotificationText := None |}.

Definition always_throws : FailedArgs -> bool := fun _ => true.

(** The first attempt is blocked, every later one answers 404. *)
Definition blocked_then_404 : nat -> Page :=
  fun n => match n with
           | 0 => Scenario.page_blocked
           | _ => Scenario.page_status 404
           end.

End Cases.

(** ** The keys the store accepts

    [setValue], of the named store as of [Actor], throws for a key that is
    not one to 256 characters of [[a-zA-Z0-9!-_.'()]]; [getValue] looks at
    no more than that the key is not empty.  [compareAndReport] above is
    the processing of a result whose keys are accepted;
    [compareAndReport_checked] adds, call by call, where the processing
    ends when a key is not. *)

Definition key_char (c : ascii) : bool :=
  is_alnum c || existsb (Ascii.eqb c) (list_ascii_of_string "!-_.'()").

Definition accepted_key (key : string) : bool :=
  (1 <=? String.length key)%nat && (String.length key <=? 256)%nat
  && forallb key_char (list_ascii_of_string key).

Definition slackMessageKey (urlKey : string) : string := "SLACK_MESSAGE_" +:+ urlKey.

Definition keys_accepted (urlKey : string) : bool :=
  accepted_key (currentScreenshotKey urlKey) && accepted_key (currentDataKey urlKey)
  && accepted_key (previousScreenshotKey urlKey)
  && accepted_key (previousDataKey urlKey)
  && accepted_key (slackMessageKey urlKey).

Definition compareAndReport_checked (MAX : N) (input : Input) (urlKey : string)
    (cfg : UrlConfig) (screenshotBuffer : Buffer) (content : string)
    (store : KeyValueStore) : KeyValueStore * list Event * Flow :=
  let store1 := setValue_buffer (currentScreenshotKey urlKey) (Some screenshotBuffer) store in
  let store2 := setValue_text (currentDataKey urlKey) (Some content) store1 in
  let previousScreenshot := getValue_buffer (previousScreenshotKey urlKey) store2 in
  let previousData := getValue_text (previousDataKey urlKey) store2 in
  let logs :=
    [log_info ("Processing URL: " +:+ url cfg);
     log_info ("Previous data: " +:+ show_nullable previousData);
     log_info ("Current data: " +:+ content)] in
  let completed :=
    let '(store', events) :=
      compareAndReport MAX input urlKey cfg screenshotBuffer content store in
    (store', events, next_round) in
  if negb (accepted_key (currentScreenshotKey urlKey)) then
    (store, [], uncaught)                                          (* line 214 *)
  else if negb (accepted_key (currentDataKey urlKey)) then
    (store1, [], uncaught)                                         (* line 215 *)
  else
    match previousScreenshot with
    | None => completed
    | Some previous =>
        let store3 :=
          setValue_buffer (previousScreenshotKey urlKey) (Some previous) store2 in
        let store4 := setValue_text (previousDataKey urlKey) previousData store3 in
        if negb (accepted_key (previousScreenshotKey urlKey)) then
          (store2, logs, uncaught)                                 (* line 240 *)
        else if negb (accepted_key (previousDataKey urlKey)) then
          (store3, logs, uncaught)                                 (* line 241 *)
        else if strict_eq previousData content then completed
        else if negb (accepted_key (slackMessageKey urlKey)) then
          (store4,
           logs ++ [log_warning ("Content changed for URL: " +:+ url cfg)],
           uncaught)                                               (* line 258 *)
        else completed
    end.

Definition processResult_checked (MAX : N) (throws : FailedArgs -> bool)
    (input : Input) (urlKey : string) (result : UrlResult)
    (store : KeyValueStore) : KeyValueStore * list Event * Flow :=
  match screenshotBuffer result with
  | None => failed throws input store result
  | Some shot =>
      match content result with
      | None => failed throws input store result
      | Some c =>
          if truthy c then
            compareAndReport_checked MAX input urlKey (urlConfig result) shot c store
          else failed throws input store result
      end
  end.

Fixpoint processResults_checked (MAX : N) (throws : FailedArgs -> bool)
    (input : Input) (urlResults : UrlResults) (store : KeyValueStore)
    : KeyValueStore * list Event * Flow :=
  match urlResults with
  | [] => (store, [], next_round)
  | (urlKey, result) :: rest =>
      let '(store', events, flow) :=
        processResult_checked MAX throws input urlKey result store in
      match flow with
      | uncaught => (store', events, uncaught)
      | next_round =>
          let '(store'', events', flow') :=
            processResults_checked MAX throws input rest store' in
          (store'', events ++ events', flow')
      end
  end.

(** One run, with the store's check of the keys. *)
Definition main_checked (MAX : N) (throws : FailedArgs -> bool) (input : Input)
    (web : string -> nat -> Page) (store : KeyValueStore)
    : KeyValueStore * list Event :=
  let '(urlResults, crawling) :=
    crawler_run (the_retryStrategy input) (the_maxRetries input) web
      (requests_of input) [] in
  let '(store', processing, flow) :=
    processResults_checked MAX throws input urlResults store in
  match flow with
  | uncaught => (store', crawling ++ processing)
  | next_round => (store', crawling ++ processing ++ closing urlResults store')
  end.

(** ** The object handed to [apify/send-mail] (lines 291-296), field by field *)

Inductive MailField :=
  | field_text (s : string)
  | field_attachments (l : list Attachment).

Definition send_mail_input (mail : Mail) : list (string * MailField) :=
  [("to", field_text (to mail));
   ("subject", field_text (subject mail));
   ("text", field_text (text mail));
   ("attachments", field_attachments (attachments mail))].

Definition has_field (name : string) (fields : list (string * MailField)) : bool :=
  existsb (fun f => String.eqb (fst f) name) fields.

Module MoreCases.

(** No selector matches and the full-page screenshot cannot be taken. *)
Definition page_no_match_no_shot : Page :=
  {| response_status := 200; page_title := "T"; injectJQuery_ok := true;
     testForBlocks_throws := false;
     page_eval_textContent := fun _ => None;
     screenshotDOMElement := fun _ => Some Scenario.img;
     page_screenshot := None |}.

(** The first attempt answers 503, every later one is fine. *)
Definition error_then_ok : nat -> Page :=
  fun n => match n with
           | 0 => Scenario.page_status 503
           | _ => Scenario.page_ok "hello"
           end.

(** A URL of 176 characters: its key has 235. *)
Definition long_url : string :=
  "http://a.io/" +:+ string_of_list_ascii (repeat "a"%char 164).

Definition cfg_long : UrlConfig :=
  {| url := long_url; contentSelector := "h1";
     screenshotSelector := None; sendNotificationText := None |}.

Definition input_long : Input :=
  {| urls := [cfg_long]; sendNotificationTo := "me@a.io"; navigationTimeout := None;
     informOnError := "true"; maxRetries := None; retryStrategy := None |}.

End MoreCases.

(** * Properties *)

(** ** Base64 and the key of a URL *)

Section Base64Facts.

Import Base64.
Local Open Scope N_scope.

Lemma to_N_lt (b : Byte.byte) : Byte.to_N b < 256.
Proof. pose proof (Byte.to_N_bounded b). lia. Qed.

Lemma to_N_inj (a b : Byte.byte) : Byte.to_N a = Byte.to_N b -> a = b.
Proof.
  intros E. pose proof (Byte.of_to_N a) as Ha. rewrite E, Byte.of_to_N in Ha.
  congruence.
Qed.

Lemma map_to_N_inj (l1 l2 : Buffer) :
  map Byte.to_N l1 = map Byte.to_N l2 -> l1 = l2.
Proof.
  revert l2. induction l1 as [|a l1 IH]; intros [|b l2] E; simpl in E;
    try discriminate; [reflexivity|].
  injection E as E1 E2. f_equal; [now apply to_N_inj | now apply IH].
Qed.

(** A property checked on the 64 sextets holds of every sextet. *)
Lemma below_64 (P : N -> bool) :
  forallb P (map N.of_nat (seq 0 64)) = true -> forall i, i < 64 -> P i = true.
Proof.
  intros H i Hi. rewrite forallb_forall in H. apply H.
  rewrite <- (N2Nat.id i). apply in_map. apply in_seq. lia.
Qed.

Lemma digit_inj i j : i < 64 -> j < 64 -> digit i = digit j -> i = j.
Proof.
  intros Hi Hj E.
  assert (H : forall i, i < 64 ->
            forallb (fun j => implb (Ascii.eqb (digit i) (digit j)) (i =? j))
              (map N.of_nat (seq 0 64)) = true).
  { apply below_64. vm_compute. reflexivity. }
  pose proof (below_64 _ (H i Hi) j Hj) as Hij. cbv beta in Hij.
  rewrite E, Ascii.eqb_refl in Hij. simpl in Hij. now apply N.eqb_eq.
Qed.

(** A digit other than [+] and [/] is alphanumeric. *)
Lemma digit_alnum i :
  i < 64 -> (Ascii.eqb (digit i) "+" || Ascii.eqb (digit i) "/")%bool = false ->
  is_alnum (digit i) = true.
Proof.
  intros Hi E.
  pose proof (below_64
    (fun i => (Ascii.eqb (digit i) "+" || Ascii.eqb (digit i) "/")
              || is_alnum (digit i))%bool) as H.
  specialize (H ltac:(vm_compute; reflexivity) i Hi). cbv beta in H.
  rewrite E in H. exact H.
Qed.

Lemma digit_not_pad i : i < 64 -> digit i <> pad.
Proof.
  intros Hi E.
  pose proof (below_64 (fun i => negb (Ascii.eqb (digit i) pad))) as H.
  specialize (H ltac:(vm_compute; reflexivity) i Hi). cbv beta in H.
  rewrite E, Ascii.eqb_refl in H. discriminate.
Qed.

Ltac divmod_facts a d :=
  let q := fresh "q" in
  let r := fresh "r" in
  pose proof (N.div_mod a d ltac:(lia));
  pose proof (N.mod_upper_bound a d ltac:(lia));
  set (q := a / d) in *; set (r := a mod d) in *;
  clearbody q r.

Lemma sextet0_lt b0 : b0 < 256 -> sextet0 b0 < 64.
Proof. unfold sextet0. intros. divmod_facts b0 4. lia. Qed.

Lemma sextet1_lt b0 b1 : b1 < 256 -> sextet1 b0 b1 < 64.
Proof. unfold sextet1. intros. divmod_facts b0 4. divmod_facts b1 16. lia. Qed.

Lemma sextet2_lt b1 b2 : b2 < 256 -> sextet2 b1 b2 < 64.
Proof. unfold sextet2. intros. divmod_facts b1 16. divmod_facts b2 64. lia. Qed.

Lemma sextet3_lt b2 : sextet3 b2 < 64.
Proof. unfold sextet3. divmod_facts b2 64. lia. Qed.

Lemma sextets_inj1 a0 b0 :
  a0 < 256 -> b0 < 256 ->
  sextet0 a0 = sextet0 b0 -> sextet1 a0 0 = sextet1 b0 0 -> a0 = b0.
Proof.
  unfold sextet0, sextet1. intros. change (0 / 16) with 0 in *.
  divmod_facts a0 4. divmod_facts b0 4. lia.
Qed.

Lemma sextets_inj2 a0 a1 b0 b1 :
  a0 < 256 -> a1 < 256 -> b0 < 256 -> b1 < 256 ->
  sextet0 a0 = sextet0 b0 -> sextet1 a0 a1 = sextet1 b0 b1 ->
  sextet2 a1 0 = sextet2 b1 0 -> a0 = b0 /\ a1 = b1.
Proof.
  unfold sextet0, sextet1, sextet2. intros. change (0 / 64) with 0 in *.
  divmod_facts a0 4. divmod_facts b0 4. divmod_facts a1 16. divmod_facts b1 16.
  lia.
Qed.

Lemma sextets_inj3 a0 a1 a2 b0 b1 b2 :
  a0 < 256 -> a1 < 256 -> a2 < 256 -> b0 < 256 -> b1 < 256 -> b2 < 256 ->
  sextet0 a0 = sextet0 b0 -> sextet1 a0 a1 = sextet1 b0 b1 ->
  sextet2 a1 a2 = sextet2 b1 b2 -> sextet3 a2 = sextet3 b2 ->
  a0 = b0 /\ a1 = b1 /\ a2 = b2.
Proof.
  unfold sextet0, sextet1, sextet2, sextet3. intros.
  divmod_facts a0 4. divmod_facts b0 4. divmod_facts a1 16. divmod_facts b1 16.
  divmod_facts a2 64. divmod_facts b2 64. lia.
Qed.

End Base64Facts.

Section KeyFacts.

Import Base64.

Lemma byte_sized_map (buf : Buffer) : byte_sized (map Byte.to_N buf).
Proof. induction buf; constructor; [apply to_N_lt | assumption]. Qed.

(** Lists are taken apart three bytes at a time, as [body] does. *)
Lemma triples_ind (P : list N -> Prop) :
  P [] -> (forall a, P [a]) -> (forall a b, P [a; b]) ->
  (forall a b c rest, P rest -> P (a :: b :: c :: rest)) ->
  forall bs, P bs.
Proof.
  intros H0 H1 H2 H3.
  assert (H : forall bs, P bs /\ (forall a, P (a :: bs)) /\ (forall a b, P (a :: b :: bs))).
  { induction bs as [|c bs (IH0 & IH1 & IH2)]; [now auto|].
    split; [apply IH1|]. split; [intros; apply IH2|]. intros a b. now apply H3. }
  intros bs. apply H.
Qed.

Lemma body_digits bs : byte_sized bs -> Forall is_digit (body bs).
Proof.
  induction bs as [|a|a b|a b c rest IH] using triples_ind; intros Hb; simpl.
  - constructor.
  - inversion_clear Hb as [|? ? Ha _].
    repeat constructor; eexists; (split; [|reflexivity]);
      auto using sextet0_lt, sextet1_lt. apply sextet1_lt. lia.
  - inversion_clear Hb as [|? ? Ha Hb']. inversion_clear Hb' as [|? ? Hb'' _].
    repeat constructor; eexists; (split; [|reflexivity]);
      auto using sextet0_lt, sextet1_lt. apply sextet2_lt. lia.
  - inversion_clear Hb as [|? ? Ha Hb']. inversion_clear Hb' as [|? ? Hb'' Hc'].
    inversion_clear Hc' as [|? ? Hc Hrest].
    repeat (constructor; [eexists; (split; [|reflexivity]);
      auto using sextet0_lt, sextet1_lt, sextet2_lt, sextet3_lt|]).
    now apply IH.
Qed.

Ltac sized :=
  repeat match goal with
         | H : byte_sized (_ :: _) |- _ => inversion_clear H
         | H : Forall _ (_ :: _) |- _ => inversion_clear H
         end.

Ltac same_digit H :=
  apply digit_inj in H;
  [ | auto using sextet0_lt, sextet1_lt, sextet2_lt, sextet3_lt; fail
    | auto using sextet0_lt, sextet1_lt, sextet2_lt, sextet3_lt; fail ].

(** The unpadded encoding determines the bytes. *)
Lemma body_inj bs1 : forall bs2,
  byte_sized bs1 -> byte_sized bs2 -> body bs1 = body bs2 -> bs1 = bs2.
Proof.
  induction bs1 as [|a|a b|a b c rest IH] using triples_ind;
    intros [|a' [|b' [|c' rest']]] H1 H2 E; simpl in E;
    try discriminate; try reflexivity; sized.
  - injection E as E0 E1.
    assert (sextet1 a 0 < 64 /\ sextet1 a' 0 < 64)%N as [? ?]
      by (split; apply sextet1_lt; lia).
    same_digit E0. same_digit E1.
    f_equal. eapply sextets_inj1; eauto.
  - injection E as E0 E1 E2.
    assert (sextet2 b 0 < 64 /\ sextet2 b' 0 < 64)%N as [? ?]
      by (split; apply sextet2_lt; lia).
    same_digit E0. same_digit E1. same_digit E2.
    destruct (sextets_inj2 a b a' b') as [-> ->]; auto.
  - injection E as E0 E1 E2 E3 E4.
    same_digit E0. same_digit E1. same_digit E2. same_digit E3.
    destruct (sextets_inj3 a b c a' b' c') as (-> & -> & ->); auto.
    do 3 f_equal. apply IH; auto.
Qed.

Lemma filter_padding n : List.filter is_alnum (padding n) = [].
Proof.
  unfold padding. destruct (n mod 3) as [|[|[|?]]]; reflexivity.
Qed.

Lemma filter_digits cs :
  Forall is_digit cs -> forallb not_plus_slash cs = true ->
  List.filter is_alnum cs = cs.
Proof.
  intros Hd Hp. apply forallb_filter_id. rewrite forallb_forall in *.
  rewrite Forall_forall in Hd. intros c Hc.
  destruct (Hd c) as (i & Hi & ->); [now apply list_elem_of_In|].
  apply digit_alnum; [assumption|].
  specialize (Hp _ Hc). unfold not_plus_slash in Hp.
  now apply negb_true_iff in Hp.
Qed.

(** The key of a plain URL is its unpadded base64 encoding. *)
Lemma urlKey_plain u :
  plain u = true ->
  urlKey u = string_of_list_ascii (body (map Byte.to_N (Buffer_from u))).
Proof.
  unfold plain, urlKey, strip_non_alnum, encode, encode_bytes. intros Hp.
  rewrite list_ascii_of_string_of_list_ascii in *.
  rewrite List.filter_app, filter_padding, app_nil_r.
  rewrite forallb_app in Hp. apply andb_true_iff in Hp as [Hp _].
  rewrite filter_digits; auto using body_digits, byte_sized_map.
Qed.

Lemma string_of_list_ascii_inj l1 l2 :
  string_of_list_ascii l1 = string_of_list_ascii l2 -> l1 = l2.
Proof.
  intros E. rewrite <- (list_ascii_of_string_of_list_ascii l1), E.
  apply list_ascii_of_string_of_list_ascii.
Qed.

Lemma Buffer_from_inj u v : Buffer_from u = Buffer_from v -> u = v.
Proof.
  unfold Buffer_from. intros E.
  rewrite <- (string_of_list_byte_of_string u), E.
  apply string_of_list_byte_of_string.
Qed.

(** Every character of a key is in [[a-zA-Z0-9]]. *)
Lemma urlKey_alnum u :
  forallb is_alnum (list_ascii_of_string (urlKey u)) = true.
Proof.
  unfold urlKey, strip_non_alnum.
  rewrite list_ascii_of_string_of_list_ascii. apply forallb_filter.
Qed.

Lemma length_string_of_list_ascii cs :
  String.length (string_of_list_ascii cs) = length cs.
Proof. induction cs as [|c cs IH]; simpl; [reflexivity | now rewrite IH]. Qed.

Lemma padding_three n : padding (3 + n) = padding n.
Proof.
  unfold padding. replace (3 + n) with (n + 1 * 3) by lia.
  now rewrite Nat.Div0.mod_add.
Qed.

Lemma ceil_third_step n : (3 + n + 2) / 3 = S ((n + 2) / 3).
Proof.
  replace (3 + n + 2) with ((n + 2) + 1 * 3) by lia.
  rewrite Nat.div_add by lia. lia.
Qed.

(** Three bytes make four characters, the last group padded to four. *)
Lemma length_encode_bytes bs :
  length (encode_bytes bs) = 4 * ((length bs + 2) / 3).
Proof.
  unfold encode_bytes.
  induction bs as [|a|a b|a b c rest IH] using triples_ind; try reflexivity.
  change (length (a :: b :: c :: rest)) with (3 + length rest).
  rewrite padding_three.
  change (body (a :: b :: c :: rest))
    with (digit (sextet0 a) :: digit (sextet1 a b)
            :: digit (sextet2 b c) :: digit (sextet3 c) :: body rest).
  change (length ((?d0 :: ?d1 :: ?d2 :: ?d3 :: body rest) ++ ?p))
    with (4 + length (body rest ++ p)).
  rewrite IH, ceil_third_step. lia.
Qed.

Lemma length_encode (buf : Buffer) :
  String.length (encode buf) = 4 * ((length buf + 2) / 3).
Proof.
  unfold encode.
  now rewrite length_string_of_list_ascii, length_encode_bytes, length_map.
Qed.

(** The test vectors of RFC 4648. *)
Example encode_rfc4648 :
  encode (Buffer_from "") = ""
  /\ encode (Buffer_from "f") = "Zg=="
  /\ encode (Buffer_from "fo") = "Zm8="
  /\ encode (Buffer_from "foo") = "Zm9v"
  /\ encode (Buffer_from "foob") = "Zm9vYg=="
  /\ encode (Buffer_from "fooba") = "Zm9vYmE="
  /\ encode (Buffer_from "foobar") = "Zm9vYmFy".
Proof. repeat split; reflexivity. Qed.

End KeyFacts.

(** C8, as the code has it: the key of a URL is a function of the URL, made
    of characters of [[a-zA-Z0-9]] only, and two URLs whose base64 encodings
    contain neither [+] nor [/] have the same key exactly when they are the
    same URL. *)
Theorem urlKey_injective_on_plain (u v : string) :
  plain u = true -> plain v = true ->
  forallb is_alnum (list_ascii_of_string (urlKey u)) = true
  /\ (urlKey u = urlKey v <-> u = v).
Proof.
  intros Hu Hv. split; [apply urlKey_alnum|].
  split; [|now intros ->].
  rewrite (urlKey_plain u Hu), (urlKey_plain v Hv). intros E.
  apply string_of_list_ascii_inj, body_inj in E; auto using byte_sized_map.
  now apply Buffer_from_inj, map_to_N_inj.
Qed.

Lemma urlKey_injective_on_plain_witness :
  plain "http://a.io/xy" = true /\ plain "http://a.io/ab" = true
  /\ forallb is_alnum (list_ascii_of_string (urlKey "http://a.io/xy")) = true
  /\ (urlKey "http://a.io/xy" = urlKey "http://a.io/ab"
      <-> "http://a.io/xy" = "http://a.io/ab").
Proof.
  split; [reflexivity|]. split; [reflexivity|].
  apply (urlKey_injective_on_plain "http://a.io/xy" "http://a.io/ab");
    reflexivity.
Defined.

(** C8, as stated, fails: a URL and the same URL followed by an empty query
    are different URLs with the same key ([YWI=] and [YWI/] both strip to
    [YWI]). *)
Lemma urlKey_collision :
  "http://a.io/xy" <> "http://a.io/xy?"
  /\ urlKey "http://a.io/xy" = urlKey "http://a.io/xy?"
  /\ Base64.encode (Buffer_from "http://a.io/xy") = "aHR0cDovL2EuaW8veHk="
  /\ Base64.encode (Buffer_from "http://a.io/xy?") = "aHR0cDovL2EuaW8veHk/".
Proof. repeat split; [discriminate | reflexivity ..]. Qed.

(** ** The diff *)

Section DiffFacts.

Variable MAX_ATTACHMENT_SIZE_BYTES : N.
Variable input : Input.

Lemma strict_eq_spec previousData content :
  strict_eq previousData content = true <-> previousData = Some content.
Proof.
  destruct previousData as [p|]; simpl; [|split; discriminate].
  rewrite String.eqb_eq. split; congruence.
Qed.

Lemma current_not_previous_screenshot k k' :
  currentScreenshotKey k <> previousScreenshotKey k'.
Proof. discriminate. Qed.

Lemma current_not_previous_data k k' :
  currentDataKey k <> previousDataKey k'.
Proof. discriminate. Qed.

(** Writing the current records leaves the previous ones as they are. *)
Lemma previous_after_current k shot c store :
  let store' := setValue_text (currentDataKey k) (Some c)
                  (setValue_buffer (currentScreenshotKey k) (Some shot) store) in
  getValue_buffer (previousScreenshotKey k) store'
  = getValue_buffer (previousScreenshotKey k) store
  /\ getValue_text (previousDataKey k) store'
     = getValue_text (previousDataKey k) store.
Proof.
  unfold getValue_buffer, getValue_text; simpl. split.
  - apply lookup_insert_ne, current_not_previous_screenshot.
  - apply lookup_insert_ne, current_not_previous_data.
Qed.

(** The fourth event of a comparison is the warning of the branch taken,
    and the branch is the one [diff] names for the stored baseline. *)
Lemma compareAndReport_verdict k cfg shot c store :
  snd (compareAndReport MAX_ATTACHMENT_SIZE_BYTES input k cfg shot c store) !! 3
  = Some (verdict_event cfg
            (diff (getValue_buffer (previousScreenshotKey k) store)
                  (getValue_text (previousDataKey k) store) c)).
Proof.
  unfold compareAndReport.
  destruct (previous_after_current k shot c store) as [-> ->].
  unfold diff.
  destruct (getValue_buffer (previousScreenshotKey k) store); [|reflexivity].
  destruct (strict_eq _ c); [reflexivity|].
  destruct (truthy (sendNotificationTo input)); [|reflexivity].
  destruct (assembleMail _ _ _ _ _ _ _ _ _); reflexivity.
Qed.

End DiffFacts.

(** C2: without a stored previous screenshot the comparison is a first run;
    with one, it is [Unchanged] exactly when the stored previous content is
    the current content, character for character, and [Changed] otherwise.
    Case and white space count.  The branch [diff] names is the branch the
    processing loop takes on the stored baseline. *)
Theorem diff_classification (previousData : option string) (content : string) :
  diff None previousData content = FirstRun
  /\ (forall previousScreenshot : Buffer,
        (diff (Some previousScreenshot) previousData content = Unchanged
         <-> previousData = Some content)
        /\ (diff (Some previousScreenshot) previousData content = Changed
            <-> previousData <> Some content))
  /\ diff (Some []) (Some "Sale") "sale" = Changed
  /\ diff (Some []) (Some "Sale") "Sale " = Changed
  /\ (forall MAX input k cfg shot store,
        snd (compareAndReport MAX input k cfg shot content store) !! 3
        = Some (verdict_event cfg
                  (diff (getValue_buffer (previousScreenshotKey k) store)
                        (getValue_text (previousDataKey k) store) content))).
Proof.
  split; [reflexivity|]. split; [|split; [reflexivity|split; [reflexivity|]]].
  - intros previousScreenshot. unfold diff.
    pose proof (strict_eq_spec previousData content) as Heq.
    destruct (strict_eq previousData content).
    + split; [tauto|]. split; [discriminate|]. intros Hne. tauto.
    + split; split; try discriminate; try reflexivity.
      * intros Hsame. apply Heq in Hsame. discriminate.
      * intros _ Hsame. apply Heq in Hsame. discriminate.
  - intros. apply compareAndReport_verdict.
Qed.

(** C10: the first-run branch is taken exactly when no previous screenshot
    is stored, whatever previous content is stored; with a previous
    screenshot and no previous content the comparison reports [Changed]. *)
Theorem first_run_by_screenshot_only
    (previousScreenshot : option Buffer) (previousData : option string)
    (content : string) :
  (diff previousScreenshot previousData content = FirstRun
   <-> previousScreenshot = None)
  /\ (forall prev : Buffer, diff (Some prev) None content = Changed)
  /\ (forall MAX input k cfg shot store,
        snd (compareAndReport MAX input k cfg shot content
               (setValue_buffer (previousScreenshotKey k) None
                  (setValue_text (previousDataKey k) previousData store))) !! 3
        = Some (verdict_event cfg FirstRun))
  /\ (forall MAX input k cfg shot store (prev : Buffer),
        snd (compareAndReport MAX input k cfg shot content
               (setValue_text (previousDataKey k) None
                  (setValue_buffer (previousScreenshotKey k) (Some prev) store))) !! 3
        = Some (verdict_event cfg Changed)).
Proof.
  split; [|split; [reflexivity|split]].
  - unfold diff. destruct previousScreenshot; [|tauto].
    destruct (strict_eq previousData content); split; discriminate.
  - intros. rewrite compareAndReport_verdict. do 2 f_equal.
    unfold getValue_buffer; simpl. now rewrite lookup_delete_eq.
  - intros. rewrite compareAndReport_verdict. do 2 f_equal.
    unfold getValue_buffer, getValue_text; simpl.
    now rewrite lookup_insert_eq, lookup_delete_eq.
Qed.

(** ** The request handler and the retries *)

Section Retries.

Variable strategy : RetryStrategy.
Variable cfg : UrlConfig.
Variable key : string.

Ltac by_status page :=
  destruct (N.eqb_spec (response_status page) 404);
  destruct (N.leb_spec 400 (response_status page));
  destruct (N.ltb_spec (response_status page) 400);
  simpl in *; try discriminate; try lia.

Lemma requestHandler_not_found page rs :
  soft_not_found page = true ->
  requestHandler strategy cfg key page rs
  = (rs,
     [log_warning ("404 Status - Page not found! Please change the URL: " +:+ url cfg)],
     Returned).
Proof.
  unfold soft_not_found, requestHandler. intros H. now rewrite H.
Qed.

Lemma requestHandler_server_error page rs :
  server_error page = true ->
  requestHandler strategy cfg key page rs
  = (rs, [],
     Threw (response_status_error
              ("Response status: " +:+ show_N (response_status page)
               +:+ ". Probably got blocked, trying again!"))).
Proof.
  unfold server_error, requestHandler. intros H. by_status page. reflexivity.
Qed.

Lemma requestHandler_blocked page rs :
  blocked page = true ->
  exists events,
    requestHandler strategy cfg key page rs
    = match page_screenshot page with
      | Some shot =>
          (Map_set key (fallback_entry cfg shot) rs, events, Threw testForBlocks_error)
      | None => (rs, events, Threw page_screenshot_error)
      end.
Proof.
  unfold blocked, requestHandler. intros H. by_status page.
  rewrite H. destruct (page_screenshot page); eexists; reflexivity.
Qed.

Lemma requestHandler_selector_failure page rs shot :
  selector_failure cfg page = true -> page_screenshot page = Some shot ->
  exists events,
    requestHandler strategy cfg key page rs
    = (Map_set key (fallback_entry cfg shot) rs,
       events,
       match strategy with
       | on_all_errors =>
           Threw (selector_error
                    ((if threw (page_eval_textContent page (contentSelector cfg))
                      then content_errorMessage else screenshot_errorMessage)
                     +:+ " Will retry..."))
       | _ => Returned
       end).
Proof.
  unfold selector_failure, content_failure, screenshot_failure, requestHandler.
  intros H Hshot. by_status page. rewrite Hshot.
  destruct (testForBlocks_throws page); [discriminate|].
  destruct (page_eval_textContent page (contentSelector cfg)); simpl in *.
  - destruct (screenshotDOMElement page _); [discriminate|].
    destruct strategy; eexists; reflexivity.
  - destruct strategy; eexists; reflexivity.
Qed.

(** A handler that returns ends the request, whatever retries are left. *)
Lemma crawlRequest_returned retriesLeft visits n rs rs' events :
  requestHandler strategy cfg key (visits n) rs = (rs', events, Returned) ->
  crawlRequest retriesLeft strategy cfg key visits n rs
  = {| run_results := rs'; run_events := events;
       run_attempts := 1; run_completion := Returned |}.
Proof. intros H. destruct retriesLeft; simpl; now rewrite H. Qed.

(** A handler that throws with no retry left ends the request as failed. *)
Lemma crawlRequest_given_up visits n rs rs' events e :
  requestHandler strategy cfg key (visits n) rs = (rs', events, Threw e) ->
  crawlRequest 0 strategy cfg key visits n rs
  = {| run_results := rs'; run_events := events;
       run_attempts := 1; run_completion := Threw e |}.
Proof. intros H. simpl. now rewrite H. Qed.

(** A handler that throws with a retry left has the request attempted again. *)
Lemma crawlRequest_retried retriesLeft visits n rs rs' events e :
  requestHandler strategy cfg key (visits n) rs = (rs', events, Threw e) ->
  let later := crawlRequest retriesLeft strategy cfg key visits (S n) rs' in
  crawlRequest (S retriesLeft) strategy cfg key visits n rs
  = {| run_results := run_results later;
       run_events := events ++ run_events later;
       run_attempts := S (run_attempts later);
       run_completion := run_completion later |}.
Proof. intros H. simpl. now rewrite H. Qed.

(** When every attempt throws, all retries are used and the request fails. *)
Lemma crawlRequest_exhausted visits :
  (forall n, throws_on strategy cfg key (visits n)) ->
  forall retriesLeft n rs,
    let run := crawlRequest retriesLeft strategy cfg key visits n rs in
    run_attempts run = S retriesLeft /\ exists e, run_completion run = Threw e.
Proof.
  intros Hall. induction retriesLeft as [|r IH]; intros n rs;
    destruct (Hall n rs) as (rs' & events & e & H).
  - rewrite (crawlRequest_given_up _ _ _ _ _ _ H). simpl. eauto.
  - cbv zeta. rewrite (crawlRequest_retried _ _ _ _ _ _ _ H). simpl.
    destruct (IH (S n) rs') as [-> He]. auto.
Qed.

Lemma throws_on_server_error page :
  server_error page = true -> throws_on strategy cfg key page.
Proof.
  intros H rs. rewrite (requestHandler_server_error _ _ H). eauto.
Qed.

Lemma throws_on_blocked page :
  blocked page = true -> throws_on strategy cfg key page.
Proof.
  intros H rs. destruct (requestHandler_blocked _ rs H) as [events ->].
  destruct (page_screenshot page); eauto.
Qed.

End Retries.

(** C5: an attempt that meets status 404 logs the warning and returns
    without recording anything for the URL, under every strategy; the
    request ends after this attempt whatever retries are left. *)
Theorem not_found_never_retried (strategy : RetryStrategy) (cfg : UrlConfig)
    (key : string) (visits : nat -> Page) (n retriesLeft : nat)
    (rs : UrlResults) :
  response_status (visits n) = 404%N ->
  let warning :=
    log_warning ("404 Status - Page not found! Please change the URL: " +:+ url cfg) in
  soft_not_found (visits n) = true
  /\ requestHandler strategy cfg key (visits n) rs = (rs, [warning], Returned)
  /\ crawlRequest retriesLeft strategy cfg key visits n rs
     = {| run_results := rs; run_events := [warning];
          run_attempts := 1; run_completion := Returned |}.
Proof.
  intros H404 warning.
  assert (Hs : soft_not_found (visits n) = true)
    by (unfold soft_not_found; now rewrite H404).
  pose proof (requestHandler_not_found strategy cfg key _ rs Hs) as H.
  split; [assumption|]. split; [assumption|].
  now apply crawlRequest_returned.
Qed.

Lemma not_found_never_retried_witness :
  response_status (Scenario.always (Scenario.page_status 404) "" 0) = 404%N
  /\ run_attempts (crawlRequest 5 on_all_errors Scenario.cfg Scenario.key
                     (Scenario.always (Scenario.page_status 404) "") 0 []) = 1
  /\ run_results (crawlRequest 5 on_all_errors Scenario.cfg Scenario.key
                    (Scenario.always (Scenario.page_status 404) "") 0 []) = [].
Proof.
  split; [reflexivity|].
  destruct (not_found_never_retried on_all_errors Scenario.cfg Scenario.key
              (Scenario.always (Scenario.page_status 404) "") 0 5 [] eq_refl)
    as (_ & _ & ->).
  split; reflexivity.
Defined.

(** ** The result-processing loop *)

Section LoopFacts.

Variable MAX_ATTACHMENT_SIZE_BYTES : N.
Variable throws : FailedArgs -> bool.
Variable input : Input.

Lemma setValue_buffer_same k b store :
  getValue_buffer k store = Some b -> setValue_buffer k (Some b) store = store.
Proof.
  unfold getValue_buffer, setValue_buffer. destruct store as [id bs ts]; simpl.
  intros H. f_equal. now apply insert_id.
Qed.

Lemma setValue_text_same k store :
  setValue_text k (getValue_text k store) store = store.
Proof.
  unfold getValue_text, setValue_text. destruct store as [id bs ts]; simpl.
  f_equal. destruct (ts !! k) eqn:E.
  - now apply insert_id.
  - now apply delete_id.
Qed.

(** The two writes of lines 240-241 put back what was just read: after a
    comparison the store differs from the one before only in the two
    current records. *)
Lemma compareAndReport_store k cfg shot c store :
  fst (compareAndReport MAX_ATTACHMENT_SIZE_BYTES input k cfg shot c store)
  = setValue_text (currentDataKey k) (Some c)
      (setValue_buffer (currentScreenshotKey k) (Some shot) store).
Proof.
  unfold compareAndReport.
  set (store2 := setValue_text _ _ (setValue_buffer _ _ store)).
  destruct (getValue_buffer (previousScreenshotKey k) store2) as [prev|] eqn:E;
    [|reflexivity].
  rewrite (setValue_buffer_same _ _ _ E), setValue_text_same.
  destruct (strict_eq _ c); [reflexivity|].
  destruct (truthy (sendNotificationTo input)); [|reflexivity].
  destruct (assembleMail _ _ _ _ _ _ _ _ _); reflexivity.
Qed.

(** No record of a previous screenshot or previous content is ever created,
    changed or removed by a comparison. *)
Lemma compareAndReport_keeps_baseline k cfg shot c store k' :
  let store' :=
    fst (compareAndReport MAX_ATTACHMENT_SIZE_BYTES input k cfg shot c store) in
  getValue_buffer (previousScreenshotKey k') store'
  = getValue_buffer (previousScreenshotKey k') store
  /\ getValue_text (previousDataKey k') store'
     = getValue_text (previousDataKey k') store.
Proof.
  cbv zeta. rewrite compareAndReport_store.
  unfold getValue_buffer, getValue_text; simpl. split.
  - apply lookup_insert_ne, current_not_previous_screenshot.
  - apply lookup_insert_ne, current_not_previous_data.
Qed.

Lemma processResult_keeps_baseline k result store k' :
  let store' :=
    fst (fst (processResult MAX_ATTACHMENT_SIZE_BYTES throws input k result store)) in
  getValue_buffer (previousScreenshotKey k') store'
  = getValue_buffer (previousScreenshotKey k') store
  /\ getValue_text (previousDataKey k') store'
     = getValue_text (previousDataKey k') store.
Proof.
  unfold processResult.
  destruct (screenshotBuffer result) as [shot|]; [|now split].
  destruct (content result) as [c|]; [|now split].
  destruct (truthy c); [|now split].
  pose proof (compareAndReport_keeps_baseline k (urlConfig result) shot c store k') as H.
  destruct (compareAndReport _ _ _ _ _ _ _). exact H.
Qed.

Lemma processResults_keeps_baseline urlResults : forall store k',
  let store' :=
    fst (fst (processResults MAX_ATTACHMENT_SIZE_BYTES throws input urlResults store)) in
  getValue_buffer (previousScreenshotKey k') store'
  = getValue_buffer (previousScreenshotKey k') store
  /\ getValue_text (previousDataKey k') store'
     = getValue_text (previousDataKey k') store.
Proof.
  induction urlResults as [|[k result] rest IH]; intros store k'; [now split|].
  simpl.
  pose proof (processResult_keeps_baseline k result store k') as H1.
  destruct (processResult _ _ _ k result store) as [[store1 events1] flow1].
  simpl in H1. destruct flow1; [|exact H1].
  specialize (IH store1 k').
  destruct (processResults _ _ _ rest store1) as [[store2 events2] flow2].
  simpl in *. destruct IH as [-> ->]. exact H1.
Qed.

(** X16: a whole run leaves every previous-screenshot and previous-content
    record as it found it, whatever the pages answer: a URL that has no
    baseline never gets one, and a stored baseline is never replaced. *)
Lemma main_keeps_baseline web store k' :
  let store' := fst (main MAX_ATTACHMENT_SIZE_BYTES throws input web store) in
  getValue_buffer (previousScreenshotKey k') store'
  = getValue_buffer (previousScreenshotKey k') store
  /\ getValue_text (previousDataKey k') store'
     = getValue_text (previousDataKey k') store.
Proof.
  unfold main. destruct (crawler_run _ _ _ _ _) as [urlResults crawling].
  pose proof (processResults_keeps_baseline urlResults store k') as H.
  destruct (processResults _ _ _ urlResults store) as [[store1 events] flow].
  destruct flow; exact H.
Qed.

End LoopFacts.

(** C9: an entry whose content is the empty string, or that has no
    screenshot, is handed to the failure handler: the store is left alone
    and nothing else is done for it.  The call made for an empty content is
    the call made for the same entry without content, so the handler cannot
    tell the two apart.  A page whose selected element has no text ends this
    way, as does a page on which the content selector matches nothing; the
    latter call carries the full-page screenshot the handler took. *)
Theorem empty_content_routed_to_failure (MAX : N) (throws : FailedArgs -> bool)
    (input : Input) (k : string) (shot fp : option Buffer) (c : option string)
    (cfg : UrlConfig) (store : KeyValueStore) :
  let entry shot c :=
    {| screenshotBuffer := shot; fullPageScreenshot := fp;
       content := c; urlConfig := cfg |} in
  let args :=
    {| failed_type := "screenshot"; failed_fullPageScreenshot := fp;
       failed_informOnError := informOnError input;
       failed_sendNotificationTo := sendNotificationTo input;
       failed_url := url cfg |} in
  let handed :=
    (store, [handleFailedAndThrow args],
     if throws args then uncaught else next_round) in
  processResult MAX throws input k (entry shot (Some "")) store = handed
  /\ processResult MAX throws input k (entry shot None) store = handed
  /\ processResult MAX throws input k (entry None c) store = handed
  /\ (let run := main Scenario.budget Scenario.never_throws Scenario.input
                   (Scenario.always (Scenario.page_ok "")) Scenario.empty_store in
      Map_get Scenario.key
        (fst (crawler_run on_block 5 (Scenario.always (Scenario.page_ok ""))
                (requests_of Scenario.input) []))
      = Some {| screenshotBuffer := Some Scenario.img; fullPageScreenshot := None;
                content := Some ""; urlConfig := Scenario.cfg |}
      /\ fst run = Scenario.empty_store
      /\ actions (snd run)
         = [handleFailedAndThrow
              {| failed_type := "screenshot"; failed_fullPageScreenshot := None;
                 failed_informOnError := "true";
                 failed_sendNotificationTo := "me@a.io";
                 failed_url := "http://a.io/xy" |}])
  /\ actions (snd (main Scenario.budget Scenario.never_throws Scenario.input
                     (Scenario.always Scenario.page_no_match) Scenario.empty_store))
     = [handleFailedAndThrow
          {| failed_type := "screenshot";
             failed_fullPageScreenshot := Some Scenario.full;
             failed_informOnError := "true";
             failed_sendNotificationTo := "me@a.io";
             failed_url := "http://a.io/xy" |}].
Proof.
  cbv zeta. split; [|split; [|split; [|split]]].
  - unfold processResult; simpl. now destruct shot.
  - unfold processResult; simpl. now destruct shot.
  - reflexivity.
  - repeat split; reflexivity.
  - reflexivity.
Qed.

(** C7 fails on the code: a URL that answers 503 on every attempt is visited
    six times under the default [on_block] with the default five retries and
    then leaves no entry, so the processing loop never sees it: no failure
    handler call, no record, only the closing log lines.  The blocked page,
    by contrast, leaves its full-page screenshot and reaches the failure
    handler. *)
Theorem server_error_url_is_dropped :
  let web := Scenario.always (Scenario.page_status 503) in
  let run := main Scenario.budget Scenario.never_throws Scenario.input web
               Scenario.empty_store in
  run_attempts (crawlRequest (maxRequestRetries on_block 5) on_block
                  Scenario.cfg Scenario.key (web "http://a.io/xy") 0 []) = 6
  /\ fst (crawler_run on_block 5 web (requests_of Scenario.input) []) = []
  /\ fst run = Scenario.empty_store
  /\ actions (snd run) = []
  /\ snd run
     = [log_info "Done processing all URLs.";
        log_info "You can check the output in the named key-value store on the following URLs:"]
  /\ actions (snd (main Scenario.budget Scenario.never_throws Scenario.input
                     (Scenario.always Scenario.page_blocked) Scenario.empty_store))
     = [handleFailedAndThrow
          {| failed_type := "screenshot";
             failed_fullPageScreenshot := Some Scenario.full;
             failed_informOnError := "true";
             failed_sendNotificationTo := "me@a.io";
             failed_url := "http://a.io/xy" |}].
Proof. cbv zeta. repeat split; reflexivity. Qed.

(** C1 fails on the code: after a first run on an empty store no previous
    screenshot and no previous content is stored, so a second run on the
    same page takes the first-run branch again and reports exactly what the
    first run reported. *)
Theorem second_run_repeats_first_run :
  let stored := fst Scenario.first_run in
  getValue_buffer (previousScreenshotKey Scenario.key) stored = None
  /\ getValue_text (previousDataKey Scenario.key) stored = None
  /\ getValue_text (currentDataKey Scenario.key) stored = Some "hello"
  /\ diff (getValue_buffer (previousScreenshotKey Scenario.key) stored)
          (getValue_text (previousDataKey Scenario.key) stored) "hello"
     = FirstRun
  /\ snd Scenario.second_run !! 6 = Some (verdict_event Scenario.cfg FirstRun)
  /\ actions (snd Scenario.second_run)
     = [Actor_pushData
          {| item_url := "http://a.io/xy";
             item_previousData := None;
             item_content := "hello";
             item_previousScreenshotUrl := None;
             item_currentScreenshotUrl :=
               "https://api.apify.com/v2/key-value-stores/S/records/currentScreenshot_aHR0cDovL2EuaW8veHk.png";
             item_sendNotificationTo := "me@a.io";
             item_isFirstRun := Some true |}]
  /\ snd Scenario.second_run = snd Scenario.first_run.
Proof. cbv zeta. repeat split; reflexivity. Qed.

(** ** Runs on a store that holds a baseline *)

(** With a baseline equal to the page nothing is reported and the baseline
    stays; with a different baseline the change is recorded and mailed with
    both screenshots; under a budget of 8 the mail goes out without them. *)
Example runs_with_baseline :
  let run store page budget :=
    main budget Scenario.never_throws Scenario.input (Scenario.always page) store in
  let same := run (Scenario.store_with (Some "hello")) (Scenario.page_ok "hello") 100%N in
  let other := run (Scenario.store_with (Some "hello")) (Scenario.page_ok "bye") 100%N in
  let tight := run (Scenario.store_with (Some "hello")) (Scenario.page_ok "bye") 8%N in
  let mails events :=
    List.flat_map (fun e => match e with
                            | Actor_call_send_mail m => [m]
                            | _ => []
                            end) events in
  actions (snd same) = []
  /\ snd same !! 6 = Some (verdict_event Scenario.cfg Unchanged)
  /\ getValue_text (previousDataKey Scenario.key) (fst same) = Some "hello"
  /\ snd other !! 6 = Some (verdict_event Scenario.cfg Changed)
  /\ map (fun m => length (attachments m)) (mails (snd other)) = [2]
  /\ getValue_text (previousDataKey Scenario.key) (fst other) = Some "hello"
  /\ map (fun m => length (attachments m)) (mails (snd tight)) = [0]
  /\ map text (mails (snd tight))
     = ["URL: http://a.io/xy" +:+ nl +:+ nl +:+ "Previous data: hello" +:+ nl +:+ nl
        +:+ "Current data: bye" +:+ nl +:+ nl
        +:+ "Screenshots are bigger than 8, not sending them as part of email attachment."].
Proof. cbv zeta. repeat split; reflexivity. Qed.

(** * Further properties of the handler and the crawl *)

Section HandlerFacts.

Variable strategy : RetryStrategy.
Variable cfg : UrlConfig.
Variable key : string.

Lemma Map_get_set_eq v (m : UrlResults) : Map_get key (Map_set key v m) = Some v.
Proof.
  induction m as [|[k w] m IH]; simpl.
  - now rewrite String.eqb_refl.
  - destruct (String.eqb k key) eqn:E; simpl; now rewrite E.
Qed.

Lemma Map_get_set_ne key' v (m : UrlResults) :
  key <> key' -> Map_get key' (Map_set key v m) = Map_get key' m.
Proof.
  intros Hne. induction m as [|[k w] m IH]; simpl.
  - destruct (String.eqb_spec key key'); [contradiction | reflexivity].
  - destruct (String.eqb_spec k key) as [->|Hk]; simpl.
    + destruct (String.eqb_spec key key'); [contradiction | reflexivity].
    + now rewrite IH.
Qed.

(** The handler leaves the collected results alone or sets its own key. *)
Lemma requestHandler_results page rs :
  let rs' := fst (fst (requestHandler strategy cfg key page rs)) in
  rs' = rs \/ exists entry, rs' = Map_set key entry rs.
Proof.
  unfold requestHandler.
  destruct (response_status page =? 404)%N; [now left|].
  destruct (400 <=? response_status page)%N; [now left|].
  destruct (testForBlocks_throws page).
  { destruct (page_screenshot page); simpl; eauto. }
  destruct (page_eval_textContent page (contentSelector cfg)); simpl.
  - destruct (screenshotDOMElement page _); simpl; [eauto|].
    destruct (page_screenshot page); simpl; [|now left].
    destruct strategy; simpl; eauto.
  - destruct (page_screenshot page); simpl; [|now left].
    destruct strategy; simpl; eauto.
Qed.

Lemma requestHandler_other_keys page rs key' :
  key <> key' ->
  Map_get key' (fst (fst (requestHandler strategy cfg key page rs))) = Map_get key' rs.
Proof.
  intros Hne. destruct (requestHandler_results page rs) as [->|[entry ->]];
    [reflexivity | now apply Map_get_set_ne].
Qed.

Lemma crawlRequest_other_keys visits key' :
  key <> key' ->
  forall retriesLeft n rs,
    Map_get key' (run_results (crawlRequest retriesLeft strategy cfg key visits n rs))
    = Map_get key' rs.
Proof.
  intros Hne. induction retriesLeft as [|r IH]; intros n rs; simpl;
    pose proof (requestHandler_other_keys (visits n) rs key' Hne) as H;
    destruct (requestHandler strategy cfg key (visits n) rs) as [[rs' events] c];
    simpl in H.
  - now destruct c.
  - destruct c; simpl; [assumption|]. now rewrite IH.
Qed.

Lemma requestHandler_success page rs :
  success cfg page = true ->
  exists events,
    requestHandler strategy cfg key page rs
    = (Map_set key (success_entry cfg page) rs, events, Returned).
Proof.
  unfold success, success_entry, requestHandler. intros H.
  destruct (N.eqb_spec (response_status page) 404);
    destruct (N.leb_spec 400 (response_status page));
    destruct (N.ltb_spec (response_status page) 400);
    simpl in *; try discriminate; try lia.
  destruct (testForBlocks_throws page); [discriminate|].
  destruct (page_eval_textContent page (contentSelector cfg)); [|discriminate].
  destruct (screenshotDOMElement page _); [|discriminate].
  eexists; reflexivity.
Qed.

Lemma crawlRequest_attempts visits :
  forall retriesLeft n rs,
    let run := crawlRequest retriesLeft strategy cfg key visits n rs in
    1 <= run_attempts run <= S retriesLeft
    /\ (forall e, run_completion run = Threw e -> run_attempts run = S retriesLeft).
Proof.
  induction retriesLeft as [|r IH]; intros n rs; simpl;
    destruct (requestHandler strategy cfg key (visits n) rs) as [[rs' events] c].
  - destruct c; simpl; (split; [lia|]); auto; discriminate.
  - destruct c; simpl.
    + split; [lia|discriminate].
    + destruct (IH (S n) rs') as [Hb He]. split; [lia|].
      intros e' H'. now rewrite (He e' H').
Qed.

End HandlerFacts.

(** X1: for every page exactly one of the five outcomes applies, and the
    handler returns, rather than throws, exactly on a 404, on a success,
    and on a selector failure whose full-page screenshot could be taken
    when the strategy is not [on_all_errors]. *)
Theorem handler_returns_exactly_when (strategy : RetryStrategy) (cfg : UrlConfig)
    (key : string) (page : Page) (rs : UrlResults) :
  length (List.filter (fun b : bool => b)
            [soft_not_found page; server_error page; blocked page;
             selector_failure cfg page; success cfg page]) = 1
  /\ is_returned (snd (requestHandler strategy cfg key page rs))
     = soft_not_found page || success cfg page
       || (selector_failure cfg page && negb (threw (page_screenshot page))
           && negb (is_on_all_errors strategy)).
Proof.
  unfold soft_not_found, server_error, blocked, selector_failure, content_failure,
    screenshot_failure, success, requestHandler.
  destruct (N.eqb_spec (response_status page) 404);
    destruct (N.leb_spec 400 (response_status page));
    destruct (N.ltb_spec (response_status page) 400);
    simpl; try lia; try (split; reflexivity).
  destruct (testForBlocks_throws page); simpl.
  { destruct (page_screenshot page); split; reflexivity. }
  destruct (page_eval_textContent page (contentSelector cfg)); simpl.
  - destruct (screenshotDOMElement page _); simpl; [split; reflexivity|].
    destruct (page_screenshot page); simpl; [|split; reflexivity].
    destruct strategy; split; reflexivity.
  - destruct (page_screenshot page); simpl; [|split; reflexivity].
    destruct strategy; split; reflexivity.
Qed.

(** X2: whatever the pages do, a request is attempted at least once and at
    most once more than the retries it is given, and it ends as failed only
    when all of them were used; with no retries, as under [never_retry], it
    is attempted exactly once. *)
Theorem attempts_are_bounded (strategy : RetryStrategy) (maxRetries : nat)
    (cfg : UrlConfig) (key : string) (visits : nat -> Page) (n : nat)
    (rs : UrlResults) :
  let run := crawlRequest (maxRequestRetries strategy maxRetries) strategy
               cfg key visits n rs in
  1 <= run_attempts run <= S maxRetries
  /\ (forall e, run_completion run = Threw e ->
        run_attempts run = S (maxRequestRetries strategy maxRetries))
  /\ run_attempts (crawlRequest (maxRequestRetries never_retry maxRetries)
                     never_retry cfg key visits n rs) = 1.
Proof.
  cbv zeta.
  destruct (crawlRequest_attempts strategy cfg key visits
              (maxRequestRetries strategy maxRetries) n rs) as [Hb He].
  split; [|split; [exact He|]].
  - assert (maxRequestRetries strategy maxRetries <= maxRetries)
      by (destruct strategy; simpl; lia). lia.
  - destruct (crawlRequest_attempts never_retry cfg key visits 0 n rs) as [Hb0 _].
    simpl maxRequestRetries. lia.
Qed.

(** X3: the attempts at one URL never touch the entry collected under
    another key. *)
Theorem crawl_leaves_other_keys (strategy : RetryStrategy) (cfg : UrlConfig)
    (key key' : string) (visits : nat -> Page) (retriesLeft n : nat)
    (rs : UrlResults) :
  key <> key' ->
  Map_get key' (run_results (crawlRequest retriesLeft strategy cfg key visits n rs))
  = Map_get key' rs.
Proof. intros Hne. now apply crawlRequest_other_keys. Qed.

Lemma crawl_leaves_other_keys_witness :
  Scenario.key <> "other"
  /\ Map_get "other"
       (run_results (crawlRequest 5 on_block Scenario.cfg Scenario.key
                       (Scenario.always (Scenario.page_ok "hello") "") 0
                       [("other", fallback_entry Cases.cfg_other Scenario.full)]))
     = Some (fallback_entry Cases.cfg_other Scenario.full).
Proof.
  split; [discriminate|].
  rewrite (crawl_leaves_other_keys on_block Scenario.cfg Scenario.key "other");
    [reflexivity | discriminate].
Defined.

(** X4: an attempt on which both selectors deliver ends the request and
    stores the content and the element screenshot under the key, replacing
    whatever an earlier attempt left there. *)
Theorem success_replaces_entry (strategy : RetryStrategy) (cfg : UrlConfig)
    (key : string) (visits : nat -> Page) (retriesLeft n : nat)
    (rs : UrlResults) :
  success cfg (visits n) = true ->
  let run := crawlRequest retriesLeft strategy cfg key visits n rs in
  run_attempts run = 1 /\ run_completion run = Returned
  /\ run_results run = Map_set key (success_entry cfg (visits n)) rs
  /\ Map_get key (run_results run) = Some (success_entry cfg (visits n)).
Proof.
  intros Hs. destruct (requestHandler_success strategy cfg key _ rs Hs) as [events H].
  cbv zeta. erewrite crawlRequest_returned by exact H. simpl.
  repeat split. apply Map_get_set_eq.
Qed.

Lemma success_replaces_entry_witness :
  success Scenario.cfg (Scenario.always (Scenario.page_ok "hello") "" 0) = true
  /\ Map_get Scenario.key
       (run_results (crawlRequest 5 on_block Scenario.cfg Scenario.key
                       (Scenario.always (Scenario.page_ok "hello") "") 0
                       [(Scenario.key, fallback_entry Scenario.cfg Scenario.full)]))
     = Some {| screenshotBuffer := Some Scenario.img; fullPageScreenshot := None;
               content := Some "hello"; urlConfig := Scenario.cfg |}.
Proof.
  split; [reflexivity|].
  apply (success_replaces_entry on_block Scenario.cfg Scenario.key
           (Scenario.always (Scenario.page_ok "hello") "") 5 0
           [(Scenario.key, fallback_entry Scenario.cfg Scenario.full)]).
  reflexivity.
Defined.

(** X5: when a blocked attempt is followed by one that meets status 404, the
    request ends with the 404, yet the entry of the blocked attempt, with
    its full-page screenshot, stays under the key, an entry that fails the
    guards of the processing loop. *)
Theorem not_found_keeps_stale_entry (strategy : RetryStrategy) (cfg : UrlConfig)
    (key : string) (visits : nat -> Page) (retriesLeft n : nat)
    (rs : UrlResults) (shot : Buffer) :
  blocked (visits n) = true ->
  page_screenshot (visits n) = Some shot ->
  response_status (visits (S n)) = 404%N ->
  let run := crawlRequest (S retriesLeft) strategy cfg key visits n rs in
  run_attempts run = 2 /\ run_completion run = Returned
  /\ Map_get key (run_results run) = Some (fallback_entry cfg shot)
  /\ is_failed_entry (fallback_entry cfg shot) = true.
Proof.
  intros Hb Hshot H404.
  destruct (requestHandler_blocked strategy cfg key _ rs Hb) as [events H].
  rewrite Hshot in H.
  assert (Hs : soft_not_found (visits (S n)) = true)
    by (unfold soft_not_found; now rewrite H404).
  cbv zeta. erewrite crawlRequest_retried by exact H.
  erewrite crawlRequest_returned
    by (apply requestHandler_not_found; exact Hs).
  simpl. repeat split. apply Map_get_set_eq.
Qed.

Lemma not_found_keeps_stale_entry_witness :
  blocked (Cases.blocked_then_404 0) = true
  /\ page_screenshot (Cases.blocked_then_404 0) = Some Scenario.full
  /\ response_status (Cases.blocked_then_404 1) = 404%N
  /\ Map_get Scenario.key
       (run_results (crawlRequest 5 on_block Scenario.cfg Scenario.key
                       Cases.blocked_then_404 0 []))
     = Some (fallback_entry Scenario.cfg Scenario.full).
Proof.
  split; [reflexivity|]. split; [reflexivity|]. split; [reflexivity|].
  apply (not_found_keeps_stale_entry on_block Scenario.cfg Scenario.key
           Cases.blocked_then_404 4 0 [] Scenario.full); reflexivity.
Defined.

(** * Further properties of the processing loop *)

Section ReportFacts.

Variable MAX_ATTACHMENT_SIZE_BYTES : N.
Variable throws : FailedArgs -> bool.
Variable input : Input.

Lemma actions_app (a b : list Event) : actions (a ++ b) = actions a ++ actions b.
Proof. apply List.filter_app. Qed.

(** The handler only logs. *)
Lemma requestHandler_only_logs strategy cfg key page rs :
  actions (snd (fst (requestHandler strategy cfg key page rs))) = [].
Proof.
  unfold requestHandler.
  destruct (response_status page =? 404)%N; [reflexivity|].
  destruct (400 <=? response_status page)%N; [reflexivity|].
  destruct (injectJQuery_ok page), (testForBlocks_throws page);
    try (destruct (page_screenshot page); reflexivity);
    destruct (page_eval_textContent page (contentSelector cfg)); simpl;
    try destruct (screenshotDOMElement page _); simpl;
    try reflexivity;
    destruct (page_screenshot page); simpl; try reflexivity;
    destruct strategy; reflexivity.
Qed.

Lemma crawlRequest_only_logs strategy cfg key visits :
  forall retriesLeft n rs,
    actions (run_events (crawlRequest retriesLeft strategy cfg key visits n rs)) = [].
Proof.
  induction retriesLeft as [|r IH]; intros n rs; simpl;
    pose proof (requestHandler_only_logs strategy cfg key (visits n) rs) as H;
    destruct (requestHandler strategy cfg key (visits n) rs) as [[rs' events] c];
    simpl in H.
  - now destruct c.
  - destruct c; simpl; [assumption|]. now rewrite actions_app, H, IH.
Qed.

Lemma crawler_run_only_logs strategy maxRetries web requests :
  forall rs, actions (snd (crawler_run strategy maxRetries web requests rs)) = [].
Proof.
  induction requests as [|[cfg key] rest IH]; intros rs; simpl; [reflexivity|].
  specialize (IH (run_results (crawlRequest (maxRequestRetries strategy maxRetries)
                                 strategy cfg key (web (url cfg)) 0 rs))).
  destruct (crawler_run strategy maxRetries web rest _) as [rs' events]. simpl in *.
  now rewrite actions_app, crawlRequest_only_logs, IH.
Qed.

Lemma closing_only_logs urlResults store : actions (closing urlResults store) = [].
Proof.
  unfold closing. rewrite actions_app. simpl.
  induction urlResults as [|[k result] rest IH]; simpl; [reflexivity|].
  rewrite actions_app, IH.
  destruct (getValue_buffer _ store); reflexivity.
Qed.

(** What a comparison reports, by the branch [diff] names for the stored
    baseline. *)
Lemma compareAndReport_digest k cfg shot c store :
  let events :=
    snd (compareAndReport MAX_ATTACHMENT_SIZE_BYTES input k cfg shot c store) in
  let previousScreenshot := getValue_buffer (previousScreenshotKey k) store in
  let previousData := getValue_text (previousDataKey k) store in
  let d := diff previousScreenshot previousData c in
  pushed events
  = match d with
    | FirstRun => [first_run_item input store k cfg c]
    | Unchanged => []
    | Changed => [changed_item input store k cfg previousData c]
    end
  /\ slack_messages events
     = match d with
       | Changed =>
           [("SLACK_MESSAGE_" +:+ k,
             {| slack_url := url cfg; slack_previousData := previousData;
                slack_content := c; slack_kvStoreId := store_id store |})]
       | _ => []
       end
  /\ mails events
     = match d, previousScreenshot with
       | Changed, Some prev =>
           if truthy (sendNotificationTo input)
           then [snd (assembleMail MAX_ATTACHMENT_SIZE_BYTES input cfg k
                        (notificationNote cfg) previousData c prev shot)]
           else []
       | _, _ => []
       end.
Proof.
  cbv zeta. unfold compareAndReport.
  destruct (previous_after_current k shot c store) as [-> ->].
  unfold diff.
  destruct (getValue_buffer (previousScreenshotKey k) store) as [prev|];
    [|repeat split].
  destruct (strict_eq _ c); [repeat split|].
  fold (notificationNote cfg).
  destruct (truthy (sendNotificationTo input)); [|repeat split].
  unfold assembleMail.
  destruct (fits _ _ _); repeat split.
Qed.

(** Without a stored previous screenshot a comparison does one thing
    besides logging: it pushes the first-run record. *)
Lemma compareAndReport_first_run k cfg shot c store :
  getValue_buffer (previousScreenshotKey k) store = None ->
  actions (snd (compareAndReport MAX_ATTACHMENT_SIZE_BYTES input k cfg shot c store))
  = [Actor_pushData (first_run_item input store k cfg c)].
Proof.
  intros Hnone. unfold compareAndReport.
  destruct (previous_after_current k shot c store) as [-> _].
  now rewrite Hnone.
Qed.

(** A run on a single URL whose first visit succeeds with a non-empty
    content is that visit's log lines, one comparison, and the closing
    lines. *)
Lemma main_single_success web store cfg c :
  urls input = [cfg] ->
  success cfg (web (url cfg) 0) = true ->
  page_eval_textContent (web (url cfg) 0) (contentSelector cfg) = Some c ->
  truthy c = true ->
  exists shot crawling,
    screenshotDOMElement (web (url cfg) 0)
      (default (contentSelector cfg) (screenshotSelector cfg)) = Some shot
    /\ actions crawling = []
    /\ main MAX_ATTACHMENT_SIZE_BYTES throws input web store
       = (let compared :=
            compareAndReport MAX_ATTACHMENT_SIZE_BYTES input (urlKey (url cfg))
              cfg shot c store in
          (fst compared,
           crawling ++ snd compared
           ++ closing [(urlKey (url cfg), success_entry cfg (web (url cfg) 0))]
                (fst compared))).
Proof.
  intros Hurls Hs Hc Ht.
  destruct (requestHandler_success (the_retryStrategy input) cfg (urlKey (url cfg))
              _ [] Hs) as [events H].
  pose proof (requestHandler_only_logs (the_retryStrategy input) cfg
                (urlKey (url cfg)) (web (url cfg) 0) []) as Hlogs.
  rewrite H in Hlogs. simpl in Hlogs.
  assert (Hshot : exists shot,
            screenshotDOMElement (web (url cfg) 0)
              (default (contentSelector cfg) (screenshotSelector cfg)) = Some shot).
  { unfold success in Hs.
    destruct (screenshotDOMElement _ _) as [shot|]; [eauto|].
    rewrite andb_false_r in Hs. discriminate. }
  destruct Hshot as [shot Hshot].
  exists shot, (events ++ []). split; [assumption|].
  split; [now rewrite app_nil_r|].
  unfold main, requests_of. rewrite Hurls. simpl.
  rewrite (crawlRequest_returned _ _ _ _ _ _ _ _ _ H). simpl.
  unfold processResult, success_entry. simpl. rewrite Hshot, Hc, Ht.
  destruct (compareAndReport _ _ _ _ _ _ _) as [store' compared].
  simpl. now rewrite !app_nil_r.
Qed.

End ReportFacts.

Section LoopFrame.

Variable MAX_ATTACHMENT_SIZE_BYTES : N.
Variable throws : FailedArgs -> bool.
Variable input : Input.

(** One round of the loop leaves the store alone or writes the two current
    records of its key. *)
Lemma processResult_store k result store :
  let store' :=
    fst (fst (processResult MAX_ATTACHMENT_SIZE_BYTES throws input k result store)) in
  store' = store
  \/ exists shot c,
       store' = setValue_text (currentDataKey k) (Some c)
                  (setValue_buffer (currentScreenshotKey k) (Some shot) store).
Proof.
  unfold processResult.
  destruct (screenshotBuffer result) as [shot|]; [|now left].
  destruct (content result) as [c|]; [|now left].
  destruct (truthy c); [|now left].
  pose proof (compareAndReport_store MAX_ATTACHMENT_SIZE_BYTES input k
                (urlConfig result) shot c store) as H.
  destruct (compareAndReport _ _ _ _ _ _ _). simpl in *. eauto.
Qed.

Lemma processResults_frame urlResults : forall store,
  let store' :=
    fst (fst (processResults MAX_ATTACHMENT_SIZE_BYTES throws input urlResults store)) in
  store_id store' = store_id store
  /\ (forall r, (forall k, In k (map fst urlResults) -> r <> currentScreenshotKey k) ->
        getValue_buffer r store' = getValue_buffer r store)
  /\ (forall r, (forall k, In k (map fst urlResults) -> r <> currentDataKey k) ->
        getValue_text r store' = getValue_text r store).
Proof.
  induction urlResults as [|[k result] rest IH]; intros store; [now repeat split|].
  simpl.
  pose proof (processResult_store k result store) as H1.
  destruct (processResult _ _ _ k result store) as [[store1 events1] flow1].
  simpl in H1.
  assert (Hstep : store_id store1 = store_id store
            /\ (forall r, r <> currentScreenshotKey k ->
                  getValue_buffer r store1 = getValue_buffer r store)
            /\ (forall r, r <> currentDataKey k ->
                  getValue_text r store1 = getValue_text r store)).
  { destruct H1 as [->|(shot & c & ->)]; [now repeat split|].
    unfold getValue_buffer, getValue_text; simpl. repeat split; intros r Hr.
    - now apply lookup_insert_ne.
    - now apply lookup_insert_ne. }
  destruct Hstep as (Hid & Hb & Ht).
  destruct flow1.
  - specialize (IH store1).
    destruct (processResults _ _ _ rest store1) as [[store2 events2] flow2].
    simpl in *. destruct IH as (Hid2 & Hb2 & Ht2).
    split; [congruence|]. split; intros r Hr.
    + rewrite Hb2 by (intros k' Hk'; apply Hr; now right).
      apply Hb, Hr. now left.
    + rewrite Ht2 by (intros k' Hk'; apply Hr; now right).
      apply Ht, Hr. now left.
  - simpl. split; [assumption|]. split; intros r Hr.
    + apply Hb, Hr. now left.
    + apply Ht, Hr. now left.
Qed.

End LoopFrame.

Lemma Map_set_keys key v (m : UrlResults) k :
  In k (map fst (Map_set key v m)) -> k = key \/ In k (map fst m).
Proof.
  induction m as [|[k0 w] m IH]; simpl.
  - intros [<-|[]]. now left.
  - destruct (String.eqb k0 key); simpl; intros [<-|H]; auto.
    destruct (IH H); auto.
Qed.

Lemma crawlRequest_keys strategy cfg key visits k :
  forall retriesLeft n rs,
    In k (map fst (run_results (crawlRequest retriesLeft strategy cfg key visits n rs))) ->
    k = key \/ In k (map fst rs).
Proof.
  assert (Hstep : forall n rs,
            In k (map fst (fst (fst (requestHandler strategy cfg key (visits n) rs)))) ->
            k = key \/ In k (map fst rs)).
  { intros n rs H.
    destruct (requestHandler_results strategy cfg key (visits n) rs) as [E|[entry E]];
      rewrite E in H; [now right | now apply Map_set_keys in H]. }
  induction retriesLeft as [|r IH]; intros n rs; simpl;
    specialize (Hstep n rs);
    destruct (requestHandler strategy cfg key (visits n) rs) as [[rs' events] c];
    simpl in Hstep.
  - now destruct c.
  - destruct c; simpl; [assumption|].
    intros H. destruct (IH _ _ H) as [->|H']; auto.
Qed.

Lemma crawler_run_keys strategy maxRetries web k requests :
  forall rs,
    In k (map fst (fst (crawler_run strategy maxRetries web requests rs))) ->
    In k (map snd requests) \/ In k (map fst rs).
Proof.
  induction requests as [|[cfg key] rest IH]; intros rs; simpl; [now right|].
  specialize (IH (run_results (crawlRequest (maxRequestRetries strategy maxRetries)
                                 strategy cfg key (web (url cfg)) 0 rs))).
  destruct (crawler_run strategy maxRetries web rest _) as [rs' events]. simpl in *.
  intros H. destruct (IH H) as [H'|H']; [now left; right|].
  apply crawlRequest_keys in H' as [->|H']; auto.
Qed.

(** X8: a run writes nothing but current records of the configured URLs:
    the store keeps its id, and a record whose key is not the
    current-screenshot (current-content) key of a configured URL is the
    same after the run as before. *)
Theorem run_writes_current_records_only (MAX : N) (throws : FailedArgs -> bool)
    (input : Input) (web : string -> nat -> Page) (store : KeyValueStore) :
  let store' := fst (main MAX throws input web store) in
  store_id store' = store_id store
  /\ (forall r,
        (forall cfg, In cfg (urls input) -> r <> currentScreenshotKey (urlKey (url cfg))) ->
        getValue_buffer r store' = getValue_buffer r store)
  /\ (forall r,
        (forall cfg, In cfg (urls input) -> r <> currentDataKey (urlKey (url cfg))) ->
        getValue_text r store' = getValue_text r store).
Proof.
  unfold main.
  pose proof (crawler_run_keys (the_retryStrategy input) (the_maxRetries input) web)
    as Hkeys.
  destruct (crawler_run _ _ _ (requests_of input) []) as [urlResults crawling] eqn:E.
  assert (Hin : forall k, In k (map fst urlResults) ->
            exists cfg, In cfg (urls input) /\ k = urlKey (url cfg)).
  { intros k Hk. specialize (Hkeys k (requests_of input) []).
    rewrite E in Hkeys. destruct (Hkeys Hk) as [H|[]].
    unfold requests_of in H. rewrite map_map in H. simpl in H.
    apply in_map_iff in H as (cfg & <- & Hcfg). eauto. }
  pose proof (processResults_frame MAX throws input urlResults store)
    as (Hid & Hb & Ht).
  destruct (processResults _ _ _ urlResults store) as [[store1 events] flow].
  simpl in *.
  assert (Hgoal : store_id store1 = store_id store
            /\ (forall r,
                  (forall cfg, In cfg (urls input) ->
                     r <> currentScreenshotKey (urlKey (url cfg))) ->
                  getValue_buffer r store1 = getValue_buffer r store)
            /\ (forall r,
                  (forall cfg, In cfg (urls input) ->
                     r <> currentDataKey (urlKey (url cfg))) ->
                  getValue_text r store1 = getValue_text r store)).
  { split; [assumption|]. split; intros r Hr.
    - apply Hb. intros k Hk. destruct (Hin k Hk) as (cfg & Hcfg & ->). now apply Hr.
    - apply Ht. intros k Hk. destruct (Hin k Hk) as (cfg & Hcfg & ->). now apply Hr. }
  destruct flow; exact Hgoal.
Qed.

(** X9: what a comparison reports follows the branch: a first run pushes
    one record marked as first run; an unchanged content pushes nothing,
    sets no Slack message and sends no mail; a changed content pushes one
    record, sets one Slack message, and sends one mail exactly when
    [sendNotificationTo] is not empty. *)
Theorem comparison_reports (MAX : N) (input : Input) (k : string)
    (cfg : UrlConfig) (shot : Buffer) (c : string) (store : KeyValueStore) :
  let events := snd (compareAndReport MAX input k cfg shot c store) in
  let previousData := getValue_text (previousDataKey k) store in
  let d := diff (getValue_buffer (previousScreenshotKey k) store) previousData c in
  pushed events
  = match d with
    | FirstRun => [first_run_item input store k cfg c]
    | Unchanged => []
    | Changed => [changed_item input store k cfg previousData c]
    end
  /\ length (slack_messages events) = match d with Changed => 1 | _ => 0 end
  /\ length (mails events)
     = match d with
       | Changed => if truthy (sendNotificationTo input) then 1 else 0
       | _ => 0
       end
  /\ Forall (fun m => to m = sendNotificationTo input) (mails events).
Proof.
  cbv zeta.
  destruct (compareAndReport_digest MAX input k cfg shot c store) as (Hp & Hs & Hm).
  cbv zeta in *. rewrite Hp, Hs, Hm. unfold diff.
  destruct (getValue_buffer (previousScreenshotKey k) store) as [prev|];
    [|repeat split; constructor].
  destruct (strict_eq _ c); [repeat split; constructor|].
  destruct (truthy (sendNotificationTo input)); repeat split; try constructor.
  - unfold assembleMail. now destruct (fits _ _ _).
  - constructor.
Qed.

(** X10: the budget is held against the base64 sizes, four characters for
    every three bytes begun: the mail goes out without attachments exactly
    when these two sizes add up to the budget or more. *)
Theorem budget_in_bytes (MAX : N) (input : Input) (cfg : UrlConfig)
    (k note : string) (previousData : option string) (c : string)
    (previousScreenshot screenshotBuffer : Buffer) :
  let mail := snd (assembleMail MAX input cfg k note previousData c
                     previousScreenshot screenshotBuffer) in
  String.length (Base64.encode previousScreenshot)
  = base64_length (length previousScreenshot)
  /\ (attachments mail = []
      <-> (MAX <= N.of_nat (base64_length (length previousScreenshot)
                            + base64_length (length screenshotBuffer)))%N).
Proof.
  cbv zeta. split; [apply length_encode|].
  unfold assembleMail, fits. rewrite !length_encode. fold (base64_length (length previousScreenshot)).
  fold (base64_length (length screenshotBuffer)).
  destruct (N.ltb_spec (N.of_nat (base64_length (length previousScreenshot)
                                  + base64_length (length screenshotBuffer))) MAX);
    simpl; split; try discriminate; try reflexivity; intros; lia.
Qed.

(** X11: for an entry that fails the guards the loop calls the failure
    handler and does nothing else; when that call throws, the loop ends
    there and the entries after it are not processed; when it returns, the
    loop goes on with them. *)
Theorem failure_handler_throw_stops_loop (MAX : N) (throws : FailedArgs -> bool)
    (input : Input) (k : string) (result : UrlResult) (rest : UrlResults)
    (store : KeyValueStore) :
  is_failed_entry result = true ->
  processResults MAX throws input ((k, result) :: rest) store
  = if throws (failedArgs input result)
    then (store, [handleFailedAndThrow (failedArgs input result)], uncaught)
    else let later := processResults MAX throws input rest store in
         (fst (fst later),
          handleFailedAndThrow (failedArgs input result) :: snd (fst later),
          snd later).
Proof.
  unfold is_failed_entry. intros Hf. simpl. unfold processResult, failed.
  destruct (screenshotBuffer result) as [shot|]; simpl in Hf.
  - destruct (content result) as [c|]; simpl in Hf.
    + apply negb_true_iff in Hf. rewrite Hf.
      destruct (throws _); [reflexivity|].
      now destruct (processResults _ _ _ rest store) as [[? ?] ?].
    + destruct (throws _); [reflexivity|].
      now destruct (processResults _ _ _ rest store) as [[? ?] ?].
  - destruct (throws _); [reflexivity|].
    now destruct (processResults _ _ _ rest store) as [[? ?] ?].
Qed.

Lemma failure_handler_throw_stops_loop_witness :
  is_failed_entry (fallback_entry Scenario.cfg Scenario.full) = true
  /\ processResults Scenario.budget Cases.always_throws Scenario.input
       [(Scenario.key, fallback_entry Scenario.cfg Scenario.full);
        ("other", success_entry Cases.cfg_other (Scenario.page_ok "hello"))]
       Scenario.empty_store
     = (Scenario.empty_store,
        [handleFailedAndThrow
           (failedArgs Scenario.input (fallback_entry Scenario.cfg Scenario.full))],
        uncaught).
Proof.
  split; [reflexivity|].
  rewrite (failure_handler_throw_stops_loop Scenario.budget Cases.always_throws
             Scenario.input Scenario.key
             (fallback_entry Scenario.cfg Scenario.full)); reflexivity.
Defined.

(** * Reading the input and naming the store *)

Lemma digits_of_uint d :
  forallb digit_char (list_ascii_of_string (NilEmpty.string_of_uint d)) = true.
Proof. induction d; simpl; auto. Qed.

(** A number printed in decimal passes [/^\d+$/]. *)
Lemma all_digits_show_N n : all_digits (show_N n) = true.
Proof.
  unfold all_digits, show_N, NilZero.string_of_uint.
  destruct (N.to_uint n) eqn:E; try reflexivity;
    rewrite digits_of_uint; reflexivity.
Qed.

Lemma array_keys_all_digits n : forallb all_digits (Object_keys (raw_array n)) = true.
Proof.
  simpl. apply forallb_forall. intros k Hk.
  apply in_map_iff in Hk as (i & <- & _). apply all_digits_show_N.
Qed.

(** X14: the value of [Actor.getInput()] is used exactly when it is an
    object with at least one key that is not a string of digits; an array,
    the empty object, [null] and a scalar are treated like a [getInput]
    that throws, and the run then depends on [INPUT.json], failing with the
    error of line 47 only when that cannot be read either. *)
Theorem input_source (file_parsed : bool) :
  (forall keys,
     loadInput (Some (raw_object keys)) file_parsed = from_getInput
     <-> exists k, In k keys /\ all_digits k = false)
  /\ (forall n, loadInput (Some (raw_array n)) file_parsed = loadInput None file_parsed)
  /\ loadInput (Some (raw_object [])) file_parsed = loadInput None file_parsed
  /\ loadInput (Some raw_nullish) file_parsed = loadInput None file_parsed
  /\ loadInput (Some raw_scalar) file_parsed = loadInput None file_parsed
  /\ loadInput None file_parsed
     = (if file_parsed then from_INPUT_json
        else load_error "Could not read input from Actor.getInput() or INPUT.json file")
  /\ all_digits "" = false /\ all_digits "0" = true /\ all_digits "urls" = false.
Proof.
  split; [|split; [|repeat split]].
  - intros keys. unfold loadInput, getInput_usable. simpl Object_keys.
    destruct (forallb all_digits keys) eqn:E; simpl.
    + split; [destruct file_parsed; discriminate|].
      intros (k & Hk & Hd). rewrite forallb_forall in E.
      rewrite (E k Hk) in Hd. discriminate.
    + split; [intros _|reflexivity].
      induction keys as [|k keys IH]; [discriminate|]. simpl in E.
      destruct (all_digits k) eqn:Ek.
      * destruct (IH E) as (k' & Hk' & Hd). exists k'. split; [now right|assumption].
      * exists k. split; [now left|assumption].
  - intros n. unfold loadInput, getInput_usable.
    now rewrite array_keys_all_digits.
Qed.

Lemma append_prefix_inj (p a b : string) : p +:+ a = p +:+ b -> a = b.
Proof. induction p as [|c p IH]; simpl; [auto|]. intros [= H]. auto. Qed.

(** X15: the store is named after the task when the run has a task id and
    after the actor otherwise, so that two tasks never share a store; a
    run without task id shares the store of a task whose id is its actor
    id, and with neither id the name ends in "undefined". *)
Theorem storeName_by_task (task1 task2 : string) (act1 act2 : option string) :
  truthy task1 = true -> truthy task2 = true ->
  storeName (Some task1) act1 = "content-checker-store-" +:+ task1
  /\ (storeName (Some task1) act1 = storeName (Some task2) act2 <-> task1 = task2)
  /\ storeName None (Some task1) = storeName (Some task1) act1
  /\ storeName (Some "") act1 = storeName None act1
  /\ storeName None None = "content-checker-store-undefined".
Proof.
  intros H1 H2. unfold storeName. simpl truthy_opt. rewrite H1, H2.
  cbn [negb show_env]. split; [reflexivity|]. split; [|repeat split].
  split; [apply append_prefix_inj | now intros ->].
Qed.

Lemma storeName_by_task_witness :
  truthy "t1" = true /\ truthy "t2" = true
  /\ (storeName (Some "t1") (Some "a") = storeName (Some "t2") (Some "a")
      <-> "t1" = "t2").
Proof.
  split; [reflexivity|]. split; [reflexivity|].
  apply (storeName_by_task "t1" "t2" (Some "a") (Some "a")); reflexivity.
Defined.

(** * The keys of the collected results *)

Lemma Map_set_NoDup key v (m : UrlResults) :
  List.NoDup (map fst m) -> List.NoDup (map fst (Map_set key v m)).
Proof.
  induction m as [|[k w] m IH]; simpl; intros Hnd.
  - constructor; [intros [] | constructor].
  - inversion_clear Hnd as [|? ? Hk Hm].
    destruct (String.eqb_spec k key) as [->|Hne]; simpl.
    + now constructor.
    + constructor; [|now apply IH].
      intros Hin. apply Map_set_keys in Hin as [->|Hin]; [now apply Hne | now apply Hk].
Qed.

Lemma crawlRequest_NoDup strategy cfg key visits :
  forall retriesLeft n rs,
    List.NoDup (map fst rs) ->
    List.NoDup (map fst (run_results
                           (crawlRequest retriesLeft strategy cfg key visits n rs))).
Proof.
  assert (Hstep : forall n rs, List.NoDup (map fst rs) ->
            List.NoDup (map fst (fst (fst (requestHandler strategy cfg key (visits n) rs))))).
  { intros n rs Hnd.
    destruct (requestHandler_results strategy cfg key (visits n) rs) as [->|[entry ->]];
      [assumption | now apply Map_set_NoDup]. }
  induction retriesLeft as [|r IH]; intros n rs Hnd; simpl;
    specialize (Hstep n rs Hnd);
    destruct (requestHandler strategy cfg key (visits n) rs) as [[rs' events] c];
    simpl in Hstep.
  - now destruct c.
  - destruct c; simpl; [assumption | now apply IH].
Qed.

(** X17: however many attempts are made and whichever URLs share a key, the
    collected results hold every key once, so the processing loop handles a
    key at most once per run, and only keys of configured URLs. *)
Theorem collected_keys_are_unique (input : Input) (web : string -> nat -> Page) :
  let urlResults :=
    fst (crawler_run (the_retryStrategy input) (the_maxRetries input) web
           (requests_of input) []) in
  List.NoDup (map fst urlResults)
  /\ (forall k, In k (map fst urlResults) ->
        exists cfg, In cfg (urls input) /\ k = urlKey (url cfg))
  /\ length urlResults <= length (urls input).
Proof.
  cbv zeta.
  assert (Hgen : forall requests rs,
            List.NoDup (map fst rs) ->
            List.NoDup (map fst (fst (crawler_run (the_retryStrategy input)
                                        (the_maxRetries input) web requests rs)))).
  { induction requests as [|[cfg key] rest IH]; intros rs Hnd; simpl; [assumption|].
    pose proof (crawlRequest_NoDup (the_retryStrategy input) cfg key (web (url cfg))
                  (maxRequestRetries (the_retryStrategy input) (the_maxRetries input))
                  0 rs Hnd) as Hnd1.
    specialize (IH _ Hnd1).
    now destruct (crawler_run _ _ web rest _) as [out events]. }
  pose proof (Hgen (requests_of input) [] ltac:(constructor)) as Hnd.
  assert (Hkeys : forall k,
            In k (map fst (fst (crawler_run (the_retryStrategy input)
                                  (the_maxRetries input) web (requests_of input) []))) ->
            In k (map (fun cfg => urlKey (url cfg)) (urls input))).
  { intros k Hk.
    destruct (crawler_run_keys _ _ web k (requests_of input) [] Hk) as [H|[]].
    unfold requests_of in H. now rewrite map_map in H. }
  split; [exact Hnd|]. split.
  - intros k Hk. apply Hkeys, in_map_iff in Hk as (cfg & <- & Hcfg). eauto.
  - rewrite <- (length_map fst), <- (length_map (fun cfg => urlKey (url cfg)) (urls input)).
    apply List.NoDup_incl_length; assumption.
Qed.

(** * The keys the store accepts *)

Lemma length_append (a b : string) :
  String.length (a +:+ b) = String.length a + String.length b.
Proof. induction a as [|c a IH]; simpl; [reflexivity | now rewrite IH]. Qed.

Lemma chars_append (a b : string) :
  list_ascii_of_string (a +:+ b) = list_ascii_of_string a ++ list_ascii_of_string b.
Proof. induction a as [|c a IH]; simpl; [reflexivity | now rewrite IH]. Qed.

Lemma alnum_key_chars (k : string) :
  forallb is_alnum (list_ascii_of_string k) = true ->
  forallb key_char (list_ascii_of_string k) = true.
Proof.
  rewrite !forallb_forall. intros H c Hc. unfold key_char.
  now rewrite (H c Hc).
Qed.

(** A key made of an accepted prefix, an alphanumeric middle and an
    accepted suffix is accepted when it is not too long. *)
Lemma accepted_affix (p k q : string) :
  forallb key_char (list_ascii_of_string p) = true ->
  forallb key_char (list_ascii_of_string q) = true ->
  forallb is_alnum (list_ascii_of_string k) = true ->
  1 <= String.length p ->
  String.length p + String.length k + String.length q <= 256 ->
  accepted_key (p +:+ k +:+ q) = true.
Proof.
  intros Hp Hq Hk H1 H256. unfold accepted_key.
  rewrite !length_append, !chars_append, !forallb_app, Hp, Hq, (alnum_key_chars k Hk).
  rewrite !andb_true_r. apply andb_true_iff. split; apply Nat.leb_le; lia.
Qed.

Lemma append_empty (k : string) : k +:+ "" = k.
Proof.
  induction k as [|c k IH]; [reflexivity|].
  change (String c (k +:+ "") = String c k). now rewrite IH.
Qed.

Lemma accepted_prefix (p k : string) :
  forallb key_char (list_ascii_of_string p) = true ->
  forallb is_alnum (list_ascii_of_string k) = true ->
  1 <= String.length p ->
  String.length p + String.length k <= 256 ->
  accepted_key (p +:+ k) = true.
Proof.
  intros Hp Hk H1 H256.
  pose proof (accepted_affix p k "" Hp eq_refl Hk H1) as H.
  rewrite append_empty in H. apply H. simpl. lia.
Qed.

(** The five keys of a URL are accepted when its key has at most 233
    characters, all alphanumeric. *)
Lemma short_key_accepted (k : string) :
  forallb is_alnum (list_ascii_of_string k) = true ->
  String.length k <= 233 ->
  keys_accepted k = true.
Proof.
  intros Hk Hlen. unfold keys_accepted.
  assert (H1 : accepted_key (currentScreenshotKey k) = true)
    by (apply accepted_affix; simpl; auto; lia).
  assert (H2 : accepted_key (currentDataKey k) = true)
    by (apply accepted_prefix; simpl; auto; lia).
  assert (H3 : accepted_key (previousScreenshotKey k) = true)
    by (apply accepted_affix; simpl; auto; lia).
  assert (H4 : accepted_key (previousDataKey k) = true)
    by (apply accepted_prefix; simpl; auto; lia).
  assert (H5 : accepted_key (slackMessageKey k) = true)
    by (apply accepted_prefix; simpl; auto; lia).
  now rewrite H1, H2, H3, H4, H5.
Qed.

(** The current-screenshot key of a key of 235 characters or more is not. *)
Lemma long_key_rejected (k : string) :
  235 <= String.length k -> accepted_key (currentScreenshotKey k) = false.
Proof.
  intros Hlen. unfold accepted_key, currentScreenshotKey.
  rewrite !length_append.
  replace (String.length "currentScreenshot_" + (String.length k + String.length ".png")
           <=? 256)%nat with false; [now rewrite andb_false_r|].
  symmetry. apply Nat.leb_gt. simpl. lia.
Qed.

Section Checked.

Variable MAX : N.
Variable throws : FailedArgs -> bool.
Variable input : Input.

(** With accepted keys the checked comparison is the comparison. *)
Lemma compareAndReport_checked_accepted k cfg shot c store :
  keys_accepted k = true ->
  compareAndReport_checked MAX input k cfg shot c store
  = (fst (compareAndReport MAX input k cfg shot c store),
     snd (compareAndReport MAX input k cfg shot c store), next_round).
Proof.
  unfold keys_accepted. rewrite !andb_true_iff.
  intros ((((H1 & H2) & H3) & H4) & H5).
  unfold compareAndReport_checked. rewrite H1, H2, H3, H4, H5. simpl negb. cbv iota.
  destruct (compareAndReport MAX input k cfg shot c store) as [store' events].
  simpl. destruct (getValue_buffer _ _); [|reflexivity].
  destruct (strict_eq _ c); reflexivity.
Qed.

Lemma processResult_checked_accepted k result store :
  keys_accepted k = true ->
  processResult_checked MAX throws input k result store
  = processResult MAX throws input k result store.
Proof.
  intros Hk. unfold processResult_checked, processResult.
  destruct (screenshotBuffer result) as [shot|]; [|reflexivity].
  destruct (content result) as [c|]; [|reflexivity].
  destruct (truthy c); [|reflexivity].
  rewrite (compareAndReport_checked_accepted _ _ _ _ _ Hk).
  now destruct (compareAndReport _ _ _ _ _ _ _).
Qed.

Lemma processResults_checked_accepted urlResults : forall store,
  (forall k, In k (map fst urlResults) -> keys_accepted k = true) ->
  processResults_checked MAX throws input urlResults store
  = processResults MAX throws input urlResults store.
Proof.
  induction urlResults as [|[k result] rest IH]; intros store Hall; [reflexivity|].
  simpl. rewrite processResult_checked_accepted by (apply Hall; now left).
  destruct (processResult _ _ _ k result store) as [[store1 events1] flow1].
  destruct flow1; [|reflexivity].
  rewrite IH by (intros k' Hk'; apply Hall; now right). reflexivity.
Qed.

(** With accepted keys for every configured URL the checked run is the run. *)
Lemma main_checked_accepted web store :
  (forall cfg, In cfg (urls input) -> keys_accepted (urlKey (url cfg)) = true) ->
  main_checked MAX throws input web store = main MAX throws input web store.
Proof.
  intros Hall. unfold main_checked, main.
  pose proof (crawler_run_keys (the_retryStrategy input) (the_maxRetries input) web)
    as Hkeys.
  destruct (crawler_run _ _ _ (requests_of input) []) as [urlResults crawling] eqn:E.
  rewrite processResults_checked_accepted; [reflexivity|].
  intros k Hk. specialize (Hkeys k (requests_of input) []).
  rewrite E in Hkeys. destruct (Hkeys Hk) as [H|[]].
  unfold requests_of in H. rewrite map_map in H. simpl in H.
  apply in_map_iff in H as (cfg & <- & Hcfg). now apply Hall.
Qed.

End Checked.

(** * Runs, with the store's check of the keys *)

(** With accepted keys: a run on one configured URL whose first visit succeeds with a
    non-empty content, on a store that holds no previous screenshot for it,
    pushes the first-run record and does nothing else besides logging; the
    content and the screenshot are stored as current, and still no previous
    screenshot is stored. *)
Lemma main_first_run (MAX : N) (throws : FailedArgs -> bool)
    (input : Input) (web : string -> nat -> Page) (store : KeyValueStore)
    (cfg : UrlConfig) (c : string) :
  urls input = [cfg] ->
  success cfg (web (url cfg) 0) = true ->
  page_eval_textContent (web (url cfg) 0) (contentSelector cfg) = Some c ->
  truthy c = true ->
  getValue_buffer (previousScreenshotKey (urlKey (url cfg))) store = None ->
  let run := main MAX throws input web store in
  let key := urlKey (url cfg) in
  actions (snd run) = [Actor_pushData (first_run_item input store key cfg c)]
  /\ getValue_text (currentDataKey key) (fst run) = Some c
  /\ getValue_buffer (currentScreenshotKey key) (fst run)
     = screenshotDOMElement (web (url cfg) 0)
         (default (contentSelector cfg) (screenshotSelector cfg))
  /\ getValue_buffer (previousScreenshotKey key) (fst run) = None.
Proof.
  intros Hurls Hs Hc Ht Hnone. cbv zeta.
  destruct (main_single_success MAX throws input web store cfg c Hurls Hs Hc Ht)
    as (shot & crawling & Hshot & Hlogs & ->).
  cbv zeta. simpl fst. simpl snd.
  rewrite !actions_app, Hlogs, closing_only_logs, app_nil_r.
  rewrite compareAndReport_first_run by assumption.
  rewrite compareAndReport_store, Hshot.
  unfold getValue_buffer, getValue_text in *; simpl.
  split; [reflexivity|]. split; [apply lookup_insert_eq|].
  split; [apply lookup_insert_eq|].
  rewrite lookup_insert_ne by apply current_not_previous_screenshot. assumption.
Qed.

(** With accepted keys: on a store that holds no previous screenshot for the URL, a second
    run on the same page reports what the first run reported, the first-run
    record, and so does every run after it. *)
Lemma main_second_run (MAX : N) (throws : FailedArgs -> bool)
    (input : Input) (web : string -> nat -> Page) (store : KeyValueStore)
    (cfg : UrlConfig) (c : string) :
  urls input = [cfg] ->
  success cfg (web (url cfg) 0) = true ->
  page_eval_textContent (web (url cfg) 0) (contentSelector cfg) = Some c ->
  truthy c = true ->
  getValue_buffer (previousScreenshotKey (urlKey (url cfg))) store = None ->
  let first := main MAX throws input web store in
  let second := main MAX throws input web (fst first) in
  actions (snd second)
  = [Actor_pushData (first_run_item input store (urlKey (url cfg)) cfg c)]
  /\ actions (snd second) = actions (snd first)
  /\ getValue_buffer (previousScreenshotKey (urlKey (url cfg))) (fst second) = None.
Proof.
  intros Hurls Hs Hc Ht Hnone. cbv zeta.
  assert (Hrun : forall st,
            getValue_buffer (previousScreenshotKey (urlKey (url cfg))) st = None ->
            actions (snd (main MAX throws input web st))
            = [Actor_pushData (first_run_item input st (urlKey (url cfg)) cfg c)]
            /\ store_id (fst (main MAX throws input web st)) = store_id st
            /\ getValue_buffer (previousScreenshotKey (urlKey (url cfg)))
                 (fst (main MAX throws input web st)) = None).
  { intros st Hst.
    destruct (main_single_success MAX throws input web st cfg c Hurls Hs Hc Ht)
      as (shot & crawling & _ & Hlogs & ->).
    cbv zeta. simpl snd. simpl fst.
    rewrite !actions_app, Hlogs, closing_only_logs, app_nil_r.
    split; [now apply compareAndReport_first_run|].
    destruct (compareAndReport_keeps_baseline MAX input (urlKey (url cfg)) cfg
                shot c st (urlKey (url cfg))) as [Hkeep _].
    cbv zeta in Hkeep. rewrite Hkeep. split; [|assumption].
    now rewrite compareAndReport_store. }
  destruct (Hrun store Hnone) as (Hfirst & Hid & Hkeep).
  destruct (Hrun _ Hkeep) as (Hsecond & _ & Hkeep2).
  rewrite Hsecond, Hfirst.
  unfold first_run_item, getPublicUrl, record_url. rewrite Hid.
  repeat split. exact Hkeep2.
Qed.

Lemma single_url_keys_accepted (input : Input) (cfg : UrlConfig) :
  urls input = [cfg] ->
  String.length (urlKey (url cfg)) <= 233 ->
  forall cfg', In cfg' (urls input) -> keys_accepted (urlKey (url cfg')) = true.
Proof.
  intros Hurls Hlen cfg' Hin. rewrite Hurls in Hin. destruct Hin as [<-|[]].
  apply short_key_accepted; [apply urlKey_alnum | assumption].
Qed.

(** X7: with accepted keys, processing a successful result completes and
    leaves in the store its screenshot and its content under the two
    current keys of its URL, and every other record, the previous
    screenshot and previous content included, as it was; when the store
    does not accept the current-screenshot key, the processing ends at line
    214 with the store untouched and nothing reported. *)
Theorem comparison_writes_current_records (MAX : N) (input : Input)
    (k : string) (cfg : UrlConfig) (shot : Buffer) (c : string)
    (store : KeyValueStore) :
  let out := compareAndReport_checked MAX input k cfg shot c store in
  let store' := fst (fst out) in
  (keys_accepted k = true ->
   snd out = next_round
   /\ getValue_buffer (currentScreenshotKey k) store' = Some shot
   /\ getValue_text (currentDataKey k) store' = Some c
   /\ store_id store' = store_id store
   /\ (forall r, r <> currentScreenshotKey k ->
         getValue_buffer r store' = getValue_buffer r store)
   /\ (forall r, r <> currentDataKey k ->
         getValue_text r store' = getValue_text r store))
  /\ (accepted_key (currentScreenshotKey k) = false -> out = (store, [], uncaught))
  /\ (235 <= String.length k -> out = (store, [], uncaught)).
Proof.
  cbv zeta. split; [|split].
  - intros Hk. rewrite compareAndReport_checked_accepted by assumption.
    simpl fst. simpl snd. rewrite compareAndReport_store.
    unfold getValue_buffer, getValue_text; simpl.
    split; [reflexivity|]. split; [apply lookup_insert_eq|].
    split; [apply lookup_insert_eq|]. split; [reflexivity|].
    split; intros r Hr; now apply lookup_insert_ne.
  - intros Hk. unfold compareAndReport_checked. now rewrite Hk.
  - intros Hlen. unfold compareAndReport_checked.
    now rewrite (long_key_rejected k Hlen).
Qed.

(** X12: a run on one configured URL whose key has at most 233 characters
    and whose first visit succeeds with a non-empty content, on a store
    that holds no previous screenshot for it, pushes the first-run record
    and does nothing else besides logging; the content and the screenshot
    are stored as current, and still no previous screenshot is stored. *)
Theorem first_visit_is_first_run (MAX : N) (throws : FailedArgs -> bool)
    (input : Input) (web : string -> nat -> Page) (store : KeyValueStore)
    (cfg : UrlConfig) (c : string) :
  urls input = [cfg] ->
  String.length (urlKey (url cfg)) <= 233 ->
  success cfg (web (url cfg) 0) = true ->
  page_eval_textContent (web (url cfg) 0) (contentSelector cfg) = Some c ->
  truthy c = true ->
  getValue_buffer (previousScreenshotKey (urlKey (url cfg))) store = None ->
  let run := main_checked MAX throws input web store in
  let key := urlKey (url cfg) in
  actions (snd run) = [Actor_pushData (first_run_item input store key cfg c)]
  /\ getValue_text (currentDataKey key) (fst run) = Some c
  /\ getValue_buffer (currentScreenshotKey key) (fst run)
     = screenshotDOMElement (web (url cfg) 0)
         (default (contentSelector cfg) (screenshotSelector cfg))
  /\ getValue_buffer (previousScreenshotKey key) (fst run) = None.
Proof.
  intros Hurls Hlen Hs Hc Ht Hnone. cbv zeta.
  rewrite main_checked_accepted
    by (now apply (single_url_keys_accepted input cfg)).
  now apply main_first_run.
Qed.

Lemma first_visit_is_first_run_witness :
  urls Scenario.input = [Scenario.cfg]
  /\ String.length (urlKey (url Scenario.cfg)) <= 233
  /\ success Scenario.cfg (Scenario.always (Scenario.page_ok "hello") (url Scenario.cfg) 0) = true
  /\ page_eval_textContent (Scenario.always (Scenario.page_ok "hello") (url Scenario.cfg) 0)
       (contentSelector Scenario.cfg) = Some "hello"
  /\ truthy "hello" = true
  /\ getValue_buffer (previousScreenshotKey (urlKey (url Scenario.cfg)))
       Scenario.empty_store = None
  /\ getValue_text (currentDataKey Scenario.key)
       (fst (main_checked Scenario.budget Scenario.never_throws Scenario.input
               (Scenario.always (Scenario.page_ok "hello")) Scenario.empty_store))
     = Some "hello".
Proof.
  split; [reflexivity|]. split; [vm_compute; lia|].
  repeat (split; [reflexivity|]).
  apply (first_visit_is_first_run Scenario.budget Scenario.never_throws
           Scenario.input (Scenario.always (Scenario.page_ok "hello"))
           Scenario.empty_store Scenario.cfg "hello");
    try reflexivity. vm_compute; lia.
Defined.

(** X13: for a URL whose key has at most 233 characters, on a store that
    holds no previous screenshot for it, a second run on the same page
    reports what the first run reported, the first-run record, and so does
    every run after it. *)
Theorem every_run_is_a_first_run (MAX : N) (throws : FailedArgs -> bool)
    (input : Input) (web : string -> nat -> Page) (store : KeyValueStore)
    (cfg : UrlConfig) (c : string) :
  urls input = [cfg] ->
  String.length (urlKey (url cfg)) <= 233 ->
  success cfg (web (url cfg) 0) = true ->
  page_eval_textContent (web (url cfg) 0) (contentSelector cfg) = Some c ->
  truthy c = true ->
  getValue_buffer (previousScreenshotKey (urlKey (url cfg))) store = None ->
  let first := main_checked MAX throws input web store in
  let second := main_checked MAX throws input web (fst first) in
  actions (snd second)
  = [Actor_pushData (first_run_item input store (urlKey (url cfg)) cfg c)]
  /\ actions (snd second) = actions (snd first)
  /\ getValue_buffer (previousScreenshotKey (urlKey (url cfg))) (fst second) = None.
Proof.
  intros Hurls Hlen Hs Hc Ht Hnone. cbv zeta.
  rewrite !main_checked_accepted
    by (now apply (single_url_keys_accepted input cfg)).
  now apply main_second_run.
Qed.

Lemma every_run_is_a_first_run_witness :
  urls Scenario.input = [Scenario.cfg]
  /\ String.length (urlKey (url Scenario.cfg)) <= 233
  /\ success Scenario.cfg (Scenario.always (Scenario.page_ok "hello") (url Scenario.cfg) 0) = true
  /\ page_eval_textContent (Scenario.always (Scenario.page_ok "hello") (url Scenario.cfg) 0)
       (contentSelector Scenario.cfg) = Some "hello"
  /\ truthy "hello" = true
  /\ getValue_buffer (previousScreenshotKey (urlKey (url Scenario.cfg)))
       Scenario.empty_store = None
  /\ (let first := main_checked Scenario.budget Scenario.never_throws Scenario.input
                     (Scenario.always (Scenario.page_ok "hello")) Scenario.empty_store in
      actions (snd (main_checked Scenario.budget Scenario.never_throws Scenario.input
                      (Scenario.always (Scenario.page_ok "hello")) (fst first)))
      = actions (snd first)).
Proof.
  split; [reflexivity|]. split; [vm_compute; lia|].
  repeat (split; [reflexivity|]).
  apply (every_run_is_a_first_run Scenario.budget Scenario.never_throws
           Scenario.input (Scenario.always (Scenario.page_ok "hello"))
           Scenario.empty_store Scenario.cfg "hello");
    try reflexivity. vm_compute; lia.
Defined.

(** X6: a run on one configured URL whose key has 235 characters or more
    (a URL of 176 bytes, say) and whose first visit succeeds ends at line
    214, where the store refuses the key of the current screenshot: the
    store is left as it was, nothing is pushed or mailed, and the log of
    the run is that of the visit, without the closing lines. *)
Theorem long_key_stops_run (MAX : N) (throws : FailedArgs -> bool)
    (input : Input) (web : string -> nat -> Page) (store : KeyValueStore)
    (cfg : UrlConfig) (c : string) :
  urls input = [cfg] ->
  235 <= String.length (urlKey (url cfg)) ->
  success cfg (web (url cfg) 0) = true ->
  page_eval_textContent (web (url cfg) 0) (contentSelector cfg) = Some c ->
  truthy c = true ->
  let run := main_checked MAX throws input web store in
  fst run = store
  /\ actions (snd run) = []
  /\ snd run
     = snd (crawler_run (the_retryStrategy input) (the_maxRetries input) web
              (requests_of input) []).
Proof.
  intros Hurls Hlen Hs Hc Ht.
  destruct (requestHandler_success (the_retryStrategy input) cfg (urlKey (url cfg))
              _ [] Hs) as [events H].
  assert (Hshot : exists shot,
            screenshotDOMElement (web (url cfg) 0)
              (default (contentSelector cfg) (screenshotSelector cfg)) = Some shot).
  { unfold success in Hs.
    destruct (screenshotDOMElement _ _) as [shot|]; [eauto|].
    rewrite andb_false_r in Hs. discriminate. }
  destruct Hshot as [shot Hshot].
  assert (Hrun : main_checked MAX throws input web store
                 = (store, snd (crawler_run (the_retryStrategy input)
                                  (the_maxRetries input) web (requests_of input) []))).
  { unfold main_checked, requests_of. rewrite Hurls. simpl.
    rewrite (crawlRequest_returned _ _ _ _ _ _ _ _ _ H). simpl.
    unfold processResult_checked, success_entry. simpl. rewrite Hshot, Hc, Ht.
    unfold compareAndReport_checked. rewrite (long_key_rejected _ Hlen). simpl.
    now rewrite !app_nil_r. }
  cbv zeta. rewrite Hrun. simpl.
  split; [reflexivity|]. split; [apply crawler_run_only_logs | reflexivity].
Qed.

Lemma long_key_stops_run_witness :
  urls MoreCases.input_long = [MoreCases.cfg_long]
  /\ 235 <= String.length (urlKey (url MoreCases.cfg_long))
  /\ success MoreCases.cfg_long
       (Scenario.always (Scenario.page_ok "hello") (url MoreCases.cfg_long) 0) = true
  /\ fst (main_checked Scenario.budget Scenario.never_throws MoreCases.input_long
            (Scenario.always (Scenario.page_ok "hello")) Scenario.empty_store)
     = Scenario.empty_store.
Proof.
  split; [reflexivity|]. split; [vm_compute; lia|]. split; [reflexivity|].
  apply (long_key_stops_run Scenario.budget Scenario.never_throws
           MoreCases.input_long (Scenario.always (Scenario.page_ok "hello"))
           Scenario.empty_store MoreCases.cfg_long "hello");
    first [reflexivity | vm_compute; lia].
Defined.

(** * The mail that reports a change *)

Lemma append_assoc (a b c : string) : (a +:+ b) +:+ c = a +:+ (b +:+ c).
Proof.
  induction a as [|x a IH]; [reflexivity|].
  change (String x ((a +:+ b) +:+ c) = String x (a +:+ (b +:+ c))). now rewrite IH.
Qed.

(** C3, as the code has it: when a change is found and a recipient is set,
    exactly one mail is sent; when the two base64 texts together are
    shorter than the budget it carries both screenshots, previous first,
    and its text is the report as it is; otherwise it carries no attachment
    and the line "Screenshots are bigger than ..., not sending them as part
    of email attachment." is added to the text after an empty line.  The
    mail has the fields [to], [subject], [text] and [attachments] and no
    field that marks it as truncated. *)
Theorem changed_mail_attachments (MAX : N) (input : Input) (k : string)
    (cfg : UrlConfig) (shot previous : Buffer) (c : string)
    (previousData : option string) (store0 : KeyValueStore) :
  truthy (sendNotificationTo input) = true ->
  strict_eq previousData c = false ->
  let store :=
    setValue_text (previousDataKey k) previousData
      (setValue_buffer (previousScreenshotKey k) (Some previous) store0) in
  let events := snd (compareAndReport MAX input k cfg shot c store) in
  let small :=
    (N.of_nat (String.length (Base64.encode previous)
               + String.length (Base64.encode shot)) <? MAX)%N in
  let note :=
    if truthy_opt (sendNotificationText cfg)
    then "Note: " +:+ default "" (sendNotificationText cfg) +:+ nl +:+ nl
    else "" in
  let report :=
    "URL: " +:+ url cfg +:+ nl +:+ nl +:+ note
    +:+ "Previous data: " +:+ show_nullable previousData +:+ nl +:+ nl
    +:+ "Current data: " +:+ c in
  let line :=
    "Screenshots are bigger than " +:+ show_N MAX
    +:+ ", not sending them as part of email attachment." in
  mails events
  = [ {| to := sendNotificationTo input;
         subject := "Apify content checker - page changed! (" +:+ url cfg +:+ ")";
         text := if small then report else report +:+ nl +:+ nl +:+ line;
         attachments :=
           if small
           then [ {| filename := "previousScreenshot_" +:+ k +:+ ".png";
                     data := Base64.encode previous |};
                  {| filename := "currentScreenshot_" +:+ k +:+ ".png";
                     data := Base64.encode shot |} ]
           else [] |} ]
  /\ Forall (fun m => length (attachments m) = if small then 2 else 0) (mails events)
  /\ Forall (fun m => has_field "truncated" (send_mail_input m) = false
                      /\ map fst (send_mail_input m)
                         = ["to"; "subject"; "text"; "attachments"])
       (mails events).
Proof.
  intros Hto Hne. cbv zeta.
  destruct (compareAndReport_digest MAX input k cfg shot c
              (setValue_text (previousDataKey k) previousData
                 (setValue_buffer (previousScreenshotKey k) (Some previous) store0)))
    as (_ & _ & Hm).
  cbv zeta in Hm.
  assert (Hshot : getValue_buffer (previousScreenshotKey k)
                    (setValue_text (previousDataKey k) previousData
                       (setValue_buffer (previousScreenshotKey k) (Some previous) store0))
                  = Some previous)
    by (unfold getValue_buffer; simpl; apply lookup_insert_eq).
  assert (Hdata : getValue_text (previousDataKey k)
                    (setValue_text (previousDataKey k) previousData
                       (setValue_buffer (previousScreenshotKey k) (Some previous) store0))
                  = previousData).
  { unfold getValue_text; simpl. destruct previousData.
    - apply lookup_insert_eq.
    - apply lookup_delete_eq. }
  rewrite Hshot, Hdata in Hm. unfold diff in Hm. rewrite Hne, Hto in Hm.
  rewrite Hm. unfold assembleMail, fits, mail_text, notificationNote, too_big_line,
    previousScreenshotKey, currentScreenshotKey.
  destruct (_ <? MAX)%N; simpl.
  - repeat split; repeat constructor.
  - rewrite !append_assoc. repeat split; repeat constructor.
Qed.

Lemma changed_mail_attachments_witness :
  truthy (sendNotificationTo Scenario.input) = true
  /\ strict_eq (Some "hello") "bye" = false
  /\ map (fun m => length (attachments m))
       (mails (snd (compareAndReport 8 Scenario.input Scenario.key Scenario.cfg
                      Scenario.img "bye"
                      (setValue_text (previousDataKey Scenario.key) (Some "hello")
                         (setValue_buffer (previousScreenshotKey Scenario.key)
                            (Some Scenario.img) Scenario.empty_store)))))
     = [0].
Proof.
  split; [reflexivity|]. split; [reflexivity|].
  destruct (changed_mail_attachments 8 Scenario.input Scenario.key Scenario.cfg
              Scenario.img Scenario.img "bye" (Some "hello") Scenario.empty_store
              eq_refl eq_refl) as [H _].
  cbv zeta in H. rewrite H. reflexivity.
Defined.

(** C3, as stated, fails: the mail sent when the screenshots exceed the
    budget has no attachment and its text ends with the added line, but
    nothing marks it as truncated: its fields are [to], [subject], [text]
    and [attachments]. *)
Lemma over_budget_mail_has_no_truncated_mark :
  map (fun m => (length (attachments m),
                 map fst (send_mail_input m),
                 has_field "truncated" (send_mail_input m)))
    (mails (snd (main 8 Scenario.never_throws Scenario.input
                   (Scenario.always (Scenario.page_ok "bye"))
                   (Scenario.store_with (Some "hello")))))
  = [(0, ["to"; "subject"; "text"; "attachments"], false)].
Proof. reflexivity. Qed.

(** * Retries, attempt by attempt *)

Section RetryFacts.

Variable strategy : RetryStrategy.
Variable cfg : UrlConfig.
Variable key : string.

Lemma RequestRun_eta (run : RequestRun) :
  run = {| run_results := run_results run; run_events := run_events run;
           run_attempts := run_attempts run; run_completion := run_completion run |}.
Proof. now destruct run. Qed.

(** After [j] attempts that throw, with [j] retries at hand, the request
    goes on with attempt [j + 1]. *)
Lemma crawlRequest_retries visits : forall j r n rs,
  (forall i, i < j -> throws_on strategy cfg key (visits (n + i))) ->
  j <= r ->
  exists rs',
    let later := crawlRequest (r - j) strategy cfg key visits (n + j) rs' in
    run_results (crawlRequest r strategy cfg key visits n rs) = run_results later
    /\ run_attempts (crawlRequest r strategy cfg key visits n rs)
       = j + run_attempts later
    /\ run_completion (crawlRequest r strategy cfg key visits n rs)
       = run_completion later.
Proof.
  induction j as [|j IH]; intros r n rs Hall Hle.
  - exists rs. rewrite Nat.sub_0_r, Nat.add_0_r. auto.
  - destruct r as [|r]; [lia|].
    destruct (Hall 0 ltac:(lia) rs) as (rs1 & events & e & H).
    rewrite Nat.add_0_r in H.
    destruct (IH r (S n) rs1) as (rs' & Hr & Ha & Hc); [|lia|].
    { intros i Hi. replace (S n + i) with (n + S i) by lia. apply Hall. lia. }
    exists rs'. cbv zeta in *.
    erewrite crawlRequest_retried by exact H. simpl.
    replace (n + S j) with (S n + j) by lia.
    rewrite Hr, Ha, Hc. auto.
Qed.

(** When the first [r + 1] attempts all throw, the request is given up. *)
Lemma crawlRequest_all_retries_used visits r rs :
  (forall i, i <= r -> throws_on strategy cfg key (visits i)) ->
  let run := crawlRequest r strategy cfg key visits 0 rs in
  run_attempts run = S r /\ exists e, run_completion run = Threw e.
Proof.
  intros Hall.
  destruct (crawlRequest_retries visits r r 0 rs) as (rs' & _ & Ha & Hc);
    [intros i Hi; apply Hall; simpl; lia | lia |].
  cbv zeta in *. rewrite Ha, Hc, Nat.sub_diag. simpl.
  destruct (Hall r ltac:(lia) rs') as (rs1 & events & e & H).
  rewrite H. simpl. split; [lia | eauto].
Qed.

End RetryFacts.

(** C6, as the code has it: after [j] attempts that meet a status of 400 or
    more other than 404, or a page that [testForBlocks] rejects, the
    request is attempted again as long as [j] does not exceed
    [maxRequestRetries], which is [maxRetries] under [on_block] and
    [on_all_errors] and 0 under [never_retry]; a success on that attempt
    ends the request with its entry stored.  When more attempts fail than
    there are retries, the request is given up after
    [maxRequestRetries + 1] attempts. *)
Theorem server_error_and_blocked_are_retried (strategy : RetryStrategy)
    (maxRetries : nat) (cfg : UrlConfig) (key : string)
    (visits : nat -> Page) (rs : UrlResults) (j : nat) :
  (forall i, i < j -> server_error (visits i) || blocked (visits i) = true) ->
  let max := maxRequestRetries strategy maxRetries in
  let run := crawlRequest max strategy cfg key visits 0 rs in
  max = match strategy with
        | never_retry => 0
        | _ => maxRetries
        end
  /\ (j <= max ->
      j < run_attempts run
      /\ (success cfg (visits j) = true ->
          run_attempts run = S j /\ run_completion run = Returned
          /\ Map_get key (run_results run) = Some (success_entry cfg (visits j))))
  /\ (max < j ->
      run_attempts run = S max /\ exists e, run_completion run = Threw e).
Proof.
  intros Hall. cbv zeta.
  assert (Hthrows : forall i, i < j -> throws_on strategy cfg key (visits i)).
  { intros i Hi. specialize (Hall i Hi). apply orb_true_iff in Hall as [H|H].
    - now apply throws_on_server_error.
    - now apply throws_on_blocked. }
  split; [now destruct strategy|]. split.
  - intros Hle.
    destruct (crawlRequest_retries strategy cfg key visits j
                (maxRequestRetries strategy maxRetries) 0 rs) as (rs' & Hr & Ha & Hc);
      [intros i Hi; now apply Hthrows | assumption |].
    cbv zeta in *. simpl Nat.add in Hr, Ha, Hc. rewrite Hr, Ha, Hc. split.
    + destruct (crawlRequest_attempts strategy cfg key visits
                  (maxRequestRetries strategy maxRetries - j) j rs') as [Hb _].
      cbv zeta in Hb. lia.
    + intros Hs.
      destruct (requestHandler_success strategy cfg key _ rs' Hs) as [events H].
      erewrite crawlRequest_returned by exact H.
      cbn [run_attempts run_completion run_results].
      split; [lia|]. split; [reflexivity | apply Map_get_set_eq].
  - intros Hlt.
    apply crawlRequest_all_retries_used. intros i Hi. apply Hthrows. lia.
Qed.

Lemma server_error_and_blocked_are_retried_witness :
  (forall i, i < 1 ->
     server_error (MoreCases.error_then_ok i) || blocked (MoreCases.error_then_ok i) = true)
  /\ (let run := crawlRequest (maxRequestRetries on_block 2) on_block Scenario.cfg
                   Scenario.key MoreCases.error_then_ok 0 [] in
      run_attempts run = 2 /\ run_completion run = Returned).
Proof.
  assert (H : forall i, i < 1 ->
            server_error (MoreCases.error_then_ok i)
            || blocked (MoreCases.error_then_ok i) = true).
  { intros i Hi. destruct i; [reflexivity | lia]. }
  split; [exact H|].
  destruct (server_error_and_blocked_are_retried on_block 2 Scenario.cfg Scenario.key
              MoreCases.error_then_ok [] 1 H) as (_ & Hle & _).
  destruct (Hle ltac:(simpl; lia)) as [_ Hs].
  destruct (Hs eq_refl) as (Ha & Hc & _). auto.
Defined.

(** C6, as stated, fails: with [maxRetries] 2 under [on_block] a URL that
    answers 503 every time is attempted a third time, after the count of
    attempts has reached the configured maximum. *)
Lemma third_attempt_with_two_retries :
  the_maxRetries (Scenario.input_with on_block) = 2
  /\ the_retryStrategy (Scenario.input_with on_block) = on_block
  /\ server_error (Scenario.page_status 503) = true
  /\ run_attempts (crawlRequest (maxRequestRetries on_block 2) on_block Scenario.cfg
                     Scenario.key (Scenario.always (Scenario.page_status 503) "") 0 [])
     = 3.
Proof. repeat split; reflexivity. Qed.

(** C4, as the code has it: an attempt on which a selector fails and the
    full-page screenshot is taken leaves, under the key of the URL, an
    entry that holds that screenshot only; it is attempted again only under
    [on_all_errors], and then only while a retry is left; under [on_block]
    and [never_retry] the handler returns, so the request ends after this
    attempt whatever retries are left, and the processing loop hands the
    entry to the failure handler. *)
Theorem selector_failure_retry (strategy : RetryStrategy) (cfg : UrlConfig)
    (key : string) (visits : nat -> Page) (n : nat) (rs : UrlResults)
    (shot : Buffer) :
  selector_failure cfg (visits n) = true ->
  page_screenshot (visits n) = Some shot ->
  let rs' := fst (fst (requestHandler strategy cfg key (visits n) rs)) in
  Map_get key rs' = Some (fallback_entry cfg shot)
  /\ (forall key', key <> key' -> Map_get key' rs' = Map_get key' rs)
  /\ match strategy with
     | on_all_errors =>
         (let run := crawlRequest 0 strategy cfg key visits n rs in
          run_attempts run = 1 /\ (exists e, run_completion run = Threw e)
          /\ run_results run = rs')
         /\ (forall retriesLeft,
               let run := crawlRequest (S retriesLeft) strategy cfg key visits n rs in
               let later := crawlRequest retriesLeft strategy cfg key visits (S n) rs' in
               run_attempts run = S (run_attempts later)
               /\ run_completion run = run_completion later
               /\ run_results run = run_results later)
     | _ =>
         forall retriesLeft,
           let run := crawlRequest retriesLeft strategy cfg key visits n rs in
           run_attempts run = 1 /\ run_completion run = Returned
           /\ run_results run = rs'
           /\ Map_get key (run_results run) = Some (fallback_entry cfg shot)
     end
  /\ (forall MAX throws input store,
        processResult MAX throws input key (fallback_entry cfg shot) store
        = (store,
           [handleFailedAndThrow
              {| failed_type := "screenshot";
                 failed_fullPageScreenshot := Some shot;
                 failed_informOnError := informOnError input;
                 failed_sendNotificationTo := sendNotificationTo input;
                 failed_url := url cfg |}],
           if throws (failedArgs input (fallback_entry cfg shot))
           then uncaught else next_round)).
Proof.
  intros Hfail Hshot.
  destruct (requestHandler_selector_failure strategy cfg key _ rs shot Hfail Hshot)
    as [events H].
  cbv zeta. rewrite H. simpl fst.
  split; [apply Map_get_set_eq|].
  split; [intros key' Hne; now apply Map_get_set_ne|].
  split; [|reflexivity].
  destruct strategy.
  - intros r. erewrite crawlRequest_returned by exact H.
    cbn [run_attempts run_completion run_results].
    repeat split. apply Map_get_set_eq.
  - split.
    + erewrite crawlRequest_given_up by exact H. simpl. eauto.
    + intros r. erewrite crawlRequest_retried by exact H. auto.
  - intros r. erewrite crawlRequest_returned by exact H.
    cbn [run_attempts run_completion run_results].
    repeat split. apply Map_get_set_eq.
Qed.

Lemma selector_failure_retry_witness :
  selector_failure Scenario.cfg (Scenario.always Scenario.page_no_match "" 0) = true
  /\ page_screenshot (Scenario.always Scenario.page_no_match "" 0) = Some Scenario.full
  /\ (let run := crawlRequest 5 on_block Scenario.cfg Scenario.key
                   (Scenario.always Scenario.page_no_match "") 0 [] in
      run_attempts run = 1 /\ run_completion run = Returned
      /\ Map_get Scenario.key (run_results run)
         = Some (fallback_entry Scenario.cfg Scenario.full)).
Proof.
  split; [reflexivity|]. split; [reflexivity|].
  destruct (selector_failure_retry on_block Scenario.cfg Scenario.key
              (Scenario.always Scenario.page_no_match "") 0 [] Scenario.full
              eq_refl eq_refl) as (_ & _ & Hrun & _).
  destruct (Hrun 5) as (Ha & Hc & _ & Hg). auto.
Defined.

(** C4, as stated, fails: when no selector matches and the full-page
    screenshot cannot be taken either, the handler throws under [on_block]
    as well; the URL is attempted six times with the default five retries
    and nothing is recorded for it. *)
Lemma selector_failure_retried_under_on_block :
  let run := crawlRequest (maxRequestRetries on_block 5) on_block Scenario.cfg
               Scenario.key (Scenario.always MoreCases.page_no_match_no_shot "") 0 [] in
  selector_failure Scenario.cfg MoreCases.page_no_match_no_shot = true
  /\ run_attempts run = 6
  /\ run_completion run = Threw page_screenshot_error
  /\ run_results run = [].
Proof. cbv zeta. repeat split; reflexivity. Qed.
